(** * Trivia API (flaskr/__init__.py): request handlers over a question store

    A shallow embedding of the seven request handlers of the trivia backend
    and of the four error handlers registered next to them.  Python values
    are a small inductive type, exceptions are results of an error-and-state
    monad threaded through the SQLAlchemy session, and the unbounded retry
    loop of the quiz handler runs on fuel. *)

From Stdlib Require Import ZArith List String Ascii Bool Lia DecimalString.
From Stdlib Require DecimalPos.
Import ListNotations.

Local Open Scope string_scope.
Local Open Scope Z_scope.

(** ** Python values *)

(** Keys of a dict: the strings of a decoded JSON object, or the integer
    ids that [get_categories] and [get_questions] use as keys. *)
Inductive key : Type :=
| KStr (s : string)
| KInt (n : Z).

(** The values the handlers see: what [request.get_json()] decodes and
    what [jsonify] receives.  JSON numbers with a fractional part are not
    represented. *)
#[warnings="-register-all"]
Inductive value : Type :=
| VNone
| VBool (b : bool)
| VInt (n : Z)
| VStr (s : string)
| VList (l : list value)
| VDict (d : list (key * value)).

Definition key_eqb (a b : key) : bool :=
  match a, b with
  | KStr s, KStr t => String.eqb s t
  | KInt n, KInt m => Z.eqb n m
  | _, _ => false
  end.

Fixpoint dict_get (d : list (key * value)) (k : key) : option value :=
  match d with
  | [] => None
  | (k', v) :: d' => if key_eqb k' k then Some v else dict_get d' k
  end.

(** [d[k] = v]: an existing key keeps its position, a new one goes last. *)
Fixpoint dict_set (d : list (key * value)) (k : key) (v : value)
  : list (key * value) :=
  match d with
  | [] => [(k, v)]
  | (k', v') :: d' =>
      if key_eqb k' k then (k', v) :: d' else (k', v') :: dict_set d' k v
  end.

(** A dict literal with string keys, as passed to [jsonify]. *)
Definition obj (l : list (string * value)) : value :=
  VDict (map (fun kv => (KStr (fst kv), snd kv)) l).

(** [field k v]: the entry of key [k] when [v] is a dict. *)
Definition field (k : string) (v : value) : option value :=
  match v with
  | VDict d => dict_get d (KStr k)
  | _ => None
  end.

(** Truth value of a Python object, as tested by [not x] and [and]. *)
Definition truthy (v : value) : bool :=
  match v with
  | VNone => false
  | VBool b => b
  | VInt n => negb (n =? 0)
  | VStr s => negb (String.eqb s "")
  | VList l => match l with [] => false | _ => true end
  | VDict d => match d with [] => false | _ => true end
  end.

(** [x == n] for an integer [n]: [True == 1] and [False == 0] hold. *)
Definition eq_int (n : Z) (v : value) : bool :=
  match v with
  | VInt m => m =? n
  | VBool b => (if b then 1 else 0) =? n
  | _ => false
  end.

(** ** Exceptions and the monad of a request *)

Inductive exn : Type :=
| HTTPException (code : Z)
| IndexError
| KeyError
| TypeError
| ValueError
| AttributeError
| DataError.

(** [Hang]: the run is still inside a loop when the fuel is spent; no
    [except] or [finally] clause gets to run. *)
Inductive result (A : Type) : Type :=
| Ok (a : A)
| Raise (e : exn)
| Hang.
Arguments Ok {A} a.
Arguments Raise {A} e.
Arguments Hang {A}.

Module Question.
(** Modelled from the spec: models.py, which declares the [Question]
    table and its [format] method, is not among the sources.  The
    columns are those of the data model (id, question text, answer text,
    difficulty, category key) and [format] serialises them as
    {id, question, answer, difficulty, category}. *)
Record t : Type := mk {
  id : Z;
  question : string;
  answer : string;
  difficulty : Z;
  category : Z
}.

Definition format (q : t) : value :=
  obj [("id", VInt (id q));
       ("question", VStr (question q));
       ("answer", VStr (answer q));
       ("difficulty", VInt (difficulty q));
       ("category", VInt (category q))].
End Question.

Module Category.
(** Modelled from the spec: models.py, which declares the [Category]
    table, is not among the sources.  A category has an id and a type
    label. *)
Record t : Type := mk {
  id : Z;
  type : string
}.
End Category.

(** The committed tables, with the next value of the id sequence. *)
Record Database : Type := mkDatabase {
  questions : list Question.t;
  categories : list Category.t;
  next_id : Z
}.

(** What [db.session] holds between [add]/[delete] and [commit]: a new
    object still carries the Python values it was built from. *)
Inductive pending : Type :=
| Add (question answer : value) (difficulty : Z) (category : value)
| Delete (q : Question.t).

Record Session : Type := mkSession {
  store : Database;
  todo : list pending
}.

Definition M (A : Type) : Type := Session -> result A * Session.

Definition ret {A} (a : A) : M A := fun s => (Ok a, s).

Definition raise {A} (e : exn) : M A := fun s => (Raise e, s).

Definition bind {A B} (m : M A) (f : A -> M B) : M B :=
  fun s =>
    match m s with
    | (Ok a, s') => f a s'
    | (Raise e, s') => (Raise e, s')
    | (Hang, s') => (Hang, s')
    end.

Notation "x <- m ;; k" := (bind m (fun x => k))
  (at level 61, m at next level, right associativity).
Notation "m ;;; k" := (bind m (fun _ => k))
  (at level 61, right associativity).

(** [abort(code)] raises the HTTP exception of that status. *)
Definition abort {A} (code : Z) : M A := raise (HTTPException code).

(** [try: body except Exception: handler].  Every exception of the model,
    [HTTPException] included, derives from [Exception]. *)
Definition try_except {A} (body : M A) (handler : exn -> M A) : M A :=
  fun s =>
    match body s with
    | (Ok a, s') => (Ok a, s')
    | (Raise e, s') => handler e s'
    | (Hang, s') => (Hang, s')
    end.

(** [try: body finally: cleanup]: the cleanup runs on both exits, and an
    exception of its own replaces the outcome of the body. *)
Definition finally {A} (body : M A) (cleanup : M unit) : M A :=
  fun s =>
    match body s with
    | (Hang, s') => (Hang, s')
    | (r, s') =>
        match cleanup s' with
        | (Ok _, s'') => (r, s'')
        | (Raise e, s'') => (Raise e, s'')
        | (Hang, s'') => (Hang, s'')
        end
    end.

Definition lift {A} (r : result A) : M A := fun s => (r, s).

(** ** Python builtins used by the handlers *)

Definition is_space (c : ascii) : bool :=
  let n := nat_of_ascii c in
  ((9 <=? n) && (n <=? 13) || (28 <=? n) && (n <=? 32))%nat.

Definition digit_of (c : ascii) : option Z :=
  let n := nat_of_ascii c in
  if ((48 <=? n) && (n <=? 57))%nat then Some (Z.of_nat n - 48) else None.

Fixpoint lstrip (s : string) : string :=
  match s with
  | String c s' => if is_space c then lstrip s' else s
  | EmptyString => EmptyString
  end.

(** Trailing white space removed: a character is kept when something
    other than white space follows or when it is not white space. *)
Fixpoint rstrip (s : string) : string :=
  match s with
  | EmptyString => EmptyString
  | String c s' =>
      match rstrip s' with
      | EmptyString => if is_space c then EmptyString else String c EmptyString
      | t => String c t
      end
  end.

(** Decimal digits with single underscores between them, most significant
    first; [acc] is the number read so far and [after_digit] tells whether
    the previous character was a digit. *)
Fixpoint digits (s : string) (acc : Z) (after_digit : bool) : option Z :=
  match s with
  | EmptyString => if after_digit then Some acc else None
  | String c s' =>
      match digit_of c with
      | Some d => digits s' (10 * acc + d) true
      | None =>
          if (Ascii.eqb c "_" && after_digit)%bool
          then digits s' acc false
          else None
      end
  end.

(** A decimal literal as [int] reads it: surrounding white space, an
    optional sign, then digits.  Only ASCII digits and white space are
    recognised. *)
Definition literal (s : string) : option Z :=
  match rstrip (lstrip s) with
  | String "-" t => option_map Z.opp (digits t 0 false)
  | String "+" t => digits t 0 false
  | t => digits t 0 false
  end.

(** [int(s)] for a string, in base 10. *)
Definition int_of_str (s : string) : result Z :=
  match literal s with
  | Some n => Ok n
  | None => Raise ValueError
  end.

(** [int(v)]. *)
Definition int (v : value) : result Z :=
  match v with
  | VInt n => Ok n
  | VBool b => Ok (if b then 1 else 0)
  | VStr s => int_of_str s
  | VNone | VList _ | VDict _ => Raise TypeError
  end.

(** [v.get(k)]: only a dict has the method; a missing key gives [None]. *)
Definition get (v : value) (k : string) : result value :=
  match v with
  | VDict d =>
      match dict_get d (KStr k) with
      | Some x => Ok x
      | None => Ok VNone
      end
  | _ => Raise AttributeError
  end.

(** [v[k]] for a string key. *)
Definition getitem (v : value) (k : string) : result value :=
  match v with
  | VDict d =>
      match dict_get d (KStr k) with
      | Some x => Ok x
      | None => Raise KeyError
      end
  | _ => Raise TypeError
  end.

(** [n in v] for an integer [n]: membership in a list by [==], in a dict
    by key; a string accepts only strings on the left, and the other
    values are not containers. *)
Definition contains (v : value) (n : Z) : result bool :=
  match v with
  | VList l => Ok (existsb (eq_int n) l)
  | VDict d => Ok (existsb (fun kv => key_eqb (fst kv) (KInt n)) d)
  | _ => Raise TypeError
  end.

(** [len(l)] as a natural number. *)
Definition len {A} (l : list A) : nat := List.length l.

(** [not l] for a list. *)
Definition is_empty {A} (l : list A) : bool :=
  match l with [] => true | _ => false end.

(** [random.choice(seq)] when the generator yields [r]: an empty sequence
    raises, otherwise the element at an index below the length. *)
Definition choice {A} (r : nat) (seq : list A) : result A :=
  match seq with
  | [] => Raise IndexError
  | x :: _ => Ok (nth (r mod len seq)%nat seq x)
  end.

(** ** SQL pattern matching *)

Definition lower (c : ascii) : ascii :=
  let n := nat_of_ascii c in
  if ((65 <=? n) && (n <=? 90))%nat then ascii_of_nat (n + 32) else c.

Definition is_percent (c : ascii) : bool := Ascii.eqb c "%".
Definition is_underscore (c : ascii) : bool := Ascii.eqb c "_".
Definition is_backslash (c : ascii) : bool := Ascii.eqb c "\".

(** [text LIKE pattern]: [%] stands for any run of characters, [_] for
    any one character, and a backslash makes the next pattern character
    literal.  A pattern that ends in a lone backslash matches nothing. *)
Fixpoint like (pattern text : list ascii) {struct pattern} : bool :=
  match pattern with
  | [] => match text with [] => true | _ => false end
  | p :: rest =>
      if is_percent p then
        (fix any (t : list ascii) : bool :=
           like rest t || match t with [] => false | _ :: t' => any t' end) text
      else if is_underscore p then
        match text with [] => false | _ :: t' => like rest t' end
      else if is_backslash p then
        match rest with
        | [] => false
        | q :: rest' =>
            match text with
            | [] => false
            | c :: t' => Ascii.eqb q c && like rest' t'
            end
        end
      else
        match text with
        | [] => false
        | c :: t' => Ascii.eqb p c && like rest t'
        end
  end.

(** [column.ilike(pattern)]: [LIKE] on the lower-cased operands.  Case is
    folded for the ASCII letters only. *)
Definition ilike (text pattern : string) : bool :=
  like (map lower (list_ascii_of_string pattern))
       (map lower (list_ascii_of_string text)).

(** ** The data layer *)

(** Modelled from the spec: models.py, which declares the columns of the
    [Question] table, is not among the sources.  [INSERT]: the values must
    fit the columns of the data model (text, text, integer, category key)
    and the category must exist; the row takes the next id. *)
Definition insert (db : Database) (question answer : value)
    (difficulty : Z) (category : value) : option (Z * Database) :=
  match question, answer, category with
  | VStr q, VStr a, VInt c =>
      if existsb (fun k => Category.id k =? c) (categories db) then
        let i := next_id db in
        Some (i, mkDatabase (questions db ++ [Question.mk i q a difficulty c])
                            (categories db) (i + 1))
      else None
  | _, _, _ => None
  end.

(** [DELETE] by primary key. *)
Definition delete (db : Database) (q : Question.t) : Database :=
  mkDatabase
    (filter (fun r => negb (Question.id r =? Question.id q)) (questions db))
    (categories db) (next_id db).

(** The pending changes applied in order; the ids given to the added
    objects are returned in that order.  One failure fails the lot. *)
Fixpoint flush (db : Database) (ps : list pending)
  : option (list Z * Database) :=
  match ps with
  | [] => Some ([], db)
  | Add q a d c :: ps' =>
      match insert db q a d c with
      | Some (i, db') =>
          match flush db' ps' with
          | Some (ids, db'') => Some (i :: ids, db'')
          | None => None
          end
      | None => None
      end
  | Delete q :: ps' => flush (delete db q) ps'
  end.

Definition session_add (p : pending) : M unit :=
  fun s => (Ok tt, mkSession (store s) (todo s ++ [p])).

Definition session_delete (q : Question.t) : M unit :=
  fun s => (Ok tt, mkSession (store s) (todo s ++ [Delete q])).

(** [db.session.commit()]; the result stands for the [id] attributes that
    the flush fills in on the added objects. *)
Definition session_commit : M (list Z) :=
  fun s =>
    match flush (store s) (todo s) with
    | Some (ids, db) => (Ok ids, mkSession db [])
    | None => (Raise DataError, s)
    end.

Definition session_rollback : M unit :=
  fun s => (Ok tt, mkSession (store s) []).

Definition session_close : M unit :=
  fun s => (Ok tt, mkSession (store s) []).

Definition Category_query_all : M (list Category.t) :=
  fun s => (Ok (categories (store s)), s).

Definition Question_query_all : M (list Question.t) :=
  fun s => (Ok (questions (store s)), s).

Definition Question_query_get (id : Z) : M (option Question.t) :=
  fun s => (Ok (find (fun q => Question.id q =? id) (questions (store s))), s).

(** Modelled from the spec: models.py, which declares the [category]
    column, is not among the sources.  [Question.query.filter_by(category=v)
    .all()]: the column is a category key of the data model, and the bound
    value must be an integer as the column is. *)
Definition Question_query_filter_by_category (v : value)
  : M (list Question.t) :=
  match v with
  | VInt c =>
      fun s =>
        (Ok (filter (fun q => Question.category q =? c) (questions (store s))),
         s)
  | _ => raise DataError
  end.

(** [Question.query.filter(Question.question.ilike(pattern)).all()]. *)
Definition Question_query_filter_ilike (pattern : string)
  : M (list Question.t) :=
  fun s =>
    (Ok (filter (fun q => ilike (Question.question q) pattern)
                (questions (store s))), s).

(** [query.limit(limit).offset(offset).all()]. *)
Definition limit_offset {A} (limit offset : Z) (rows : list A) : list A :=
  firstn (Z.to_nat limit) (skipn (Z.to_nat offset) rows).
Arguments limit_offset : simpl never.

(** [Question.query.paginate(page, per_page)] of Flask-SQLAlchemy, with
    its default [error_out=True]: the items of the page and the total. *)
Definition Question_query_paginate (page per_page : Z)
  : M (list Question.t * Z) :=
  if page <? 1 then abort 404
  else if per_page <? 0 then abort 404
  else
    fun s =>
      let rows := questions (store s) in
      let items := limit_offset per_page ((page - 1) * per_page) rows in
      if is_empty items && negb (page =? 1) then abort 404 s
      else
        let total :=
          if (page =? 1) && (Z.of_nat (len items) <? per_page)
          then Z.of_nat (len items)
          else Z.of_nat (len rows) in
        (Ok (items, total), s).

(** ** The application *)

(** What [request.get_json()] finds: no JSON content type, a body that
    does not parse, or a decoded value. *)
Inductive payload : Type :=
| NoJson
| BadJson
| Json (v : value).

(** [request.get_json()]: [None] without JSON content, a 400 exception on
    a body that does not parse. *)
Definition get_json (p : payload) : M value :=
  match p with
  | NoJson => ret VNone
  | BadJson => abort 400
  | Json v => ret v
  end.

(** [if cond: abort(code)]. *)
Definition abort_if (cond : bool) (code : Z) : M unit :=
  if cond then abort code else ret tt.

(** The id-to-type dict built by the loop over the categories. *)
Definition categories_dict (categories : list Category.t) : value :=
  VDict (fold_left
           (fun d category =>
              dict_set d (KInt (Category.id category))
                       (VStr (Category.type category)))
           categories []).

(** [request.args.get(name, default)]: the text of the argument when the
    query string has it. *)
Definition args_get (arg : option string) (default : value) : value :=
  match arg with
  | Some a => VStr a
  | None => default
  end.

Definition QUESTIONS_PER_PAGE : Z := 10.

Section Handlers.

(** [str(v)] of a list or a dict goes through [repr] of the elements,
    which is not modelled: it is left as a parameter. *)
Variable repr_container : value -> string.

(** [f'{v}']: the text of a value inside a formatted string. *)
Definition str (v : value) : string :=
  match v with
  | VNone => "None"
  | VBool true => "True"
  | VBool false => "False"
  | VInt n => NilZero.string_of_int (Z.to_int n)
  | VStr s => s
  | VList _ | VDict _ => repr_container v
  end.

(** The [except Exception] clause shared by the handlers. *)
Definition on_exception {A} (_ : exn) : M A :=
  session_rollback ;;; abort 422.

(** GET /categories *)
Definition get_categories : M (value * Z) :=
  finally
    (try_except
       (categories <- Category_query_all ;;
        abort_if (is_empty categories) 404 ;;;
        let categories_data := categories_dict categories in
        ret (obj [("success", VBool true);
                  ("categories", categories_data)], 200))
       on_exception)
    session_close.

(** GET /questions?page=N; [page_arg] is the query-string argument. *)
Definition get_questions (page_arg : option string) : M (value * Z) :=
  finally
    (try_except
       (page <- lift (int (args_get page_arg (VInt 1))) ;;
        paginated <- Question_query_paginate page QUESTIONS_PER_PAGE ;;
        let questions_data := map Question.format (fst paginated) in
        categories <- Category_query_all ;;
        let categories_data := categories_dict categories in
        abort_if (is_empty questions_data || is_empty categories) 404 ;;;
        ret (obj [("success", VBool true);
                  ("total_questions", VInt (snd paginated));
                  ("questions", VList questions_data);
                  ("categories", categories_data);
                  ("current_category", VNone)], 200))
       on_exception)
    session_close.

(** DELETE /questions/id *)
Definition delete_question (id : Z) : M (value * Z) :=
  finally
    (try_except
       (found <- Question_query_get id ;;
        match found with
        | None => abort 404
        | Some question =>
            session_delete question ;;;
            session_commit ;;;
            ret (obj [("success", VBool true);
                      ("id", VInt (Question.id question))], 200)
        end)
       on_exception)
    session_close.

(** POST /questions *)
Definition add_question (p : payload) : M (value * Z) :=
  finally
    (try_except
       (data <- get_json p ;;
        question <- lift (get data "question") ;;
        answer <- lift (get data "answer") ;;
        raw <- lift (get data "difficulty") ;;
        difficulty <- lift (int raw) ;;
        category <- lift (get data "category") ;;
        abort_if (negb (truthy data && truthy question && truthy answer
                        && truthy (VInt difficulty) && truthy category))
                 400 ;;;
        session_add (Add question answer difficulty category) ;;;
        ids <- session_commit ;;
        ret (obj [("success", VBool true);
                  ("id", VInt (hd 0 ids))], 200))
       on_exception)
    session_close.

(** POST /questions/search *)
Definition search_questions (p : payload) : M (value * Z) :=
  finally
    (try_except
       (data <- get_json p ;;
        search_term <- lift (get data "searchTerm") ;;
        found <- Question_query_filter_ilike ("%" ++ str search_term ++ "%") ;;
        let questions := map Question.format found in
        ret (obj [("success", VBool true);
                  ("questions", VList questions);
                  ("total_questions", VInt (Z.of_nat (len questions)));
                  ("current_category", VNone)], 200))
       on_exception)
    session_close.

(** GET /categories/id/questions *)
Definition get_questions_by_category (id : Z) : M (value * Z) :=
  finally
    (try_except
       (found <- Question_query_filter_by_category (VInt id) ;;
        let questions_data := map Question.format found in
        abort_if (is_empty questions_data) 404 ;;;
        ret (obj [("success", VBool true);
                  ("total_questions", VInt (Z.of_nat (len found)));
                  ("questions", VList questions_data);
                  ("current_category", VInt id)], 200))
       on_exception)
    session_close.

(** The [while True] loop of the quiz: draw, and leave the loop on a
    question whose id is not among the previous ones.  [rng k] is what the
    generator yields at its [k]-th call; [fuel] bounds the iterations. *)
Fixpoint draw (fuel : nat) (rng : nat -> nat) (k : nat)
    (questions : list Question.t) (previous_questions : value)
  : result Question.t :=
  match fuel with
  | O => Hang
  | S fuel' =>
      match choice (rng k) questions with
      | Ok question =>
          match contains previous_questions (Question.id question) with
          | Ok false => Ok question
          | Ok true => draw fuel' rng (S k) questions previous_questions
          | Raise e => Raise e
          | Hang => Hang
          end
      | Raise e => Raise e
      | Hang => Hang
      end
  end.

(** POST /quizzes *)
Definition play_quiz (fuel : nat) (rng : nat -> nat) (p : payload)
  : M (value * Z) :=
  finally
    (try_except
       (data <- get_json p ;;
        previous_questions <- lift (get data "previous_questions") ;;
        quiz_category <- lift (get data "quiz_category") ;;
        category_id <- lift (getitem quiz_category "id") ;;
        pool <- (if eq_int 0 category_id
                 then Question_query_all
                 else Question_query_filter_by_category category_id) ;;
        question <- lift (draw fuel rng 0 pool previous_questions) ;;
        ret (obj [("success", VBool true);
                  ("question", Question.format question)], 200))
       on_exception)
    session_close.

End Handlers.

(** ** Error handlers and dispatch *)

Record response : Type := mkResponse {
  status : Z;
  body : value
}.

Definition error_body (code : Z) (message : string) : value :=
  obj [("success", VBool false);
       ("error", VInt code);
       ("message", VStr message)].

Definition bad_request : response :=
  mkResponse 400 (error_body 400 "Bad request error").

Definition not_found : response :=
  mkResponse 404 (error_body 404 "Resource not found").

Definition internal_server_error : response :=
  mkResponse 500 (error_body 500 "An error has occured, please try again").

Definition unprocesable_entity : response :=
  mkResponse 422 (error_body 422 "Unprocessable entity").

(** What Flask makes of the outcome of a view function: a returned pair
    is the response, an HTTP exception goes to the handler registered for
    its code, any other exception is an internal server error.  A run
    that hangs has no response. *)
Definition respond (out : result (value * Z)) : option response :=
  match out with
  | Ok (b, code) => Some (mkResponse code b)
  | Raise (HTTPException code) =>
      Some (if code =? 400 then bad_request
            else if code =? 404 then not_found
            else if code =? 422 then unprocesable_entity
            else if code =? 500 then internal_server_error
            else mkResponse code VNone)
  | Raise _ => Some internal_server_error
  | Hang => None
  end.

(** One request: the view runs on a fresh session over the committed
    tables; the response and the tables it leaves. *)
Definition serve (view : M (value * Z)) (db : Database)
  : option response * Database :=
  let (out, s) := view (mkSession db []) in
  (respond out, store s).

(** ** Substrings *)

(** [starts_with t s]: [s] begins with [t]. *)
Fixpoint starts_with (t s : list ascii) : bool :=
  match t, s with
  | [], _ => true
  | _ :: _, [] => false
  | a :: t', b :: s' => Ascii.eqb a b && starts_with t' s'
  end.

(** [occurs_in t s]: [t] is a substring of [s]. *)
Fixpoint occurs_in (t s : list ascii) : bool :=
  starts_with t s
  || match s with
     | [] => false
     | _ :: s' => occurs_in t s'
     end.

(** The text contains the term as a substring, letter case apart. *)
Definition contains_ci (term text : string) : bool :=
  occurs_in (map lower (list_ascii_of_string term))
            (map lower (list_ascii_of_string text)).

(** A character that [LIKE] reads as itself. *)
Definition plain_char (c : ascii) : bool :=
  negb (is_percent c || is_underscore c || is_backslash c).

(** A term without [%], [_] and backslash. *)
Definition wildcard_free (term : string) : bool :=
  forallb plain_char (list_ascii_of_string term).

(** ** Vocabulary of the statements *)

(** [returns P m]: from every session [m] either returns a value that
    satisfies [P] or raises; it never hangs. *)
Definition returns {A} (P : A -> Prop) (m : M A) : Prop :=
  forall s,
    match fst (m s) with
    | Ok a => P a
    | Raise _ => True
    | Hang => False
    end.

Definition anything {A} (_ : A) : Prop := True.

(** A view answers every request with 200 or with the 422 body. *)
Definition answers_200_or_422 (view : M (value * Z)) : Prop :=
  forall db,
    exists resp,
      fst (serve view db) = Some resp
      /\ (status resp = 200 \/ resp = unprocesable_entity).

(** The pool a quiz draws from: every question for category 0, the
    questions of the category otherwise. *)
Definition eligible_pool (db : Database) (c : Z) : list Question.t :=
  if c =? 0 then questions db
  else filter (fun q => Question.category q =? c) (questions db).

(** The value [d.get(k)] reads from a dict. *)
Definition lookup (d : list (key * value)) (k : string) : value :=
  match dict_get d (KStr k) with
  | Some x => x
  | None => VNone
  end.

(** A field of the body that is absent or whose value is falsy. *)
Definition falsy_or_missing (data : value) (k : string) : Prop :=
  match field k data with
  | Some v => truthy v = false
  | None => True
  end.

(** The test of a lookup by primary key. *)
Definition has_id (id : Z) (q : Question.t) : bool := Question.id q =? id.

(** The answer to a search lists exactly the questions whose text
    contains [term], letter case apart: a 200 with those questions, their
    number as [total_questions] and a null [current_category], the store
    being left as it was. *)
Definition answers_with_matches (repr_container : value -> string)
    (db : Database) (data : value) (term : string) : Prop :=
  exists resp listed,
    serve (search_questions repr_container (Json data)) db = (Some resp, db)
    /\ status resp = 200
    /\ field "questions" (body resp) = Some (VList listed)
    /\ listed
       = map Question.format
           (filter (fun q => contains_ci term (Question.question q))
                   (questions db))
    /\ field "total_questions" (body resp)
       = Some (VInt (Z.of_nat (len listed)))
    /\ field "current_category" (body resp) = Some VNone.

(** Sample rows and requests. *)
Definition film : Question.t :=
  Question.mk 1 "What is the TITLE of the film?" "Alien" 2 5.

Definition planet : Question.t :=
  Question.mk 2 "Which planet is nearest to the sun?" "Mercury" 1 1.

Definition painter : Question.t :=
  Question.mk 3 "Who painted La Gioconda?" "Leonardo" 3 2.

Definition sample_db : Database :=
  mkDatabase [film; planet; painter]
             [Category.mk 1 "Science"; Category.mk 2 "Art";
              Category.mk 5 "Entertainment"]
             4.

(** Twelve questions: two pages. *)
Definition twelve_db : Database :=
  mkDatabase
    (map (fun i => Question.mk (Z.of_nat i) "Which one?" "This" 1 1)
         (seq 1 12))
    [Category.mk 1 "Science"] 13.

(** A stand-in for the text of containers, which no sample request
    formats. *)
Definition no_repr (_ : value) : string := "".

(** The body of a POST /quizzes. *)
Definition quiz_request (previous : list Z) (c : Z) : value :=
  obj [("previous_questions", VList (map VInt previous));
       ("quiz_category", obj [("id", VInt c)])].

(** [ends_with P m]: whenever [m] returns, its value satisfies [P]. *)
Definition ends_with {A} (P : A -> Prop) (m : M A) : Prop :=
  forall s,
    match fst (m s) with
    | Ok a => P a
    | _ => True
    end.

(** What a view may return: status 200 with a true [success] flag. *)
Definition success_200 (r : value * Z) : Prop :=
  snd r = 200 /\ field "success" (fst r) = Some (VBool true).

(** Every answer of the view is a 200 flagged as a success, or the 422
    body. *)
Definition answers_success_or_422 (view : M (value * Z)) : Prop :=
  forall db resp,
    fst (serve view db) = Some resp ->
    (status resp = 200 /\ field "success" (body resp) = Some (VBool true))
    \/ resp = unprocesable_entity.

(** [keeps_store m]: [m] leaves the committed tables as they were. *)
Definition keeps_store {A} (m : M A) : Prop :=
  forall s, store (snd (m s)) = store s.

(** The ids of the questions are pairwise distinct and below the next
    value of the id sequence. *)
Definition well_formed (db : Database) : Prop :=
  NoDup (map Question.id (questions db))
  /\ Forall (fun q => Question.id q < next_id db) (questions db).

(** The 200 answer of a search that found [found]. *)
Definition search_answer (found : list Question.t) : response :=
  mkResponse 200
    (obj [("success", VBool true);
          ("questions", VList (map Question.format found));
          ("total_questions",
           VInt (Z.of_nat (len (map Question.format found))));
          ("current_category", VNone)]).

(** Two terms that differ by the case of their letters at most. *)
Definition same_letters (t1 t2 : string) : Prop :=
  map lower (list_ascii_of_string t1) = map lower (list_ascii_of_string t2).

(** The term made of [n] underscores. *)
Definition underscores (n : nat) : string :=
  string_of_list_ascii (repeat "_"%char n).

(** The questions that GET /questions?page=... lists, none when the
    answer is not a 200. *)
Definition page_of (db : Database) (page_arg : option string) : list value :=
  match fst (serve (get_questions page_arg) db) with
  | Some resp =>
      match field "questions" (body resp) with
      | Some (VList listed) => listed
      | _ => []
      end
  | None => []
  end.

(** The body of a sample POST /questions. *)
Definition sea_request : value :=
  obj [("question", VStr "Which sea is the saltiest?");
       ("answer", VStr "The Dead Sea");
       ("difficulty", VStr "3");
       ("category", VInt 1)].

(** The store after the sample POST /questions. *)
Definition sample_db_with_sea : Database :=
  mkDatabase
    [film; planet; painter;
     Question.mk 4 "Which sea is the saltiest?" "The Dead Sea" 3 1]
    (categories sample_db) 5.

(** * Properties *)

(** ** Outcomes of monadic code *)

Lemma returns_ret {A} (P : A -> Prop) (a : A) : P a -> returns P (ret a).
Proof. intros H s. exact H. Qed.

Lemma returns_raise {A} (P : A -> Prop) (e : exn) : returns P (raise e).
Proof. intros s. exact I. Qed.

Lemma returns_abort {A} (P : A -> Prop) (code : Z) : returns P (abort code).
Proof. apply returns_raise. Qed.

Lemma returns_bind {A B} (P : B -> Prop) (m : M A) (f : A -> M B) :
  returns anything m -> (forall a, returns P (f a)) -> returns P (bind m f).
Proof.
  intros Hm Hf s. unfold bind. specialize (Hm s).
  destruct (m s) as [[a | e | ] s']; simpl in *.
  - apply Hf.
  - exact I.
  - exact Hm.
Qed.

Lemma returns_lift {A} (r : result A) :
  r <> Hang -> returns anything (lift r).
Proof.
  intros H s. unfold lift. simpl. destruct r; try exact I. now apply H.
Qed.

Lemma returns_abort_if (cond : bool) (code : Z) :
  returns anything (abort_if cond code).
Proof. intros s. unfold abort_if. destruct cond; exact I. Qed.

Lemma int_of_str_terminates (a : string) : int_of_str a <> Hang.
Proof. unfold int_of_str. destruct (literal a); discriminate. Qed.

Lemma int_terminates (v : value) : int v <> Hang.
Proof.
  destruct v; simpl; try discriminate. apply int_of_str_terminates.
Qed.

Lemma get_terminates (v : value) (k : string) : get v k <> Hang.
Proof.
  destruct v; simpl; try discriminate.
  destruct (dict_get d (KStr k)); discriminate.
Qed.

Lemma getitem_terminates (v : value) (k : string) : getitem v k <> Hang.
Proof.
  destruct v; simpl; try discriminate.
  destruct (dict_get d (KStr k)); discriminate.
Qed.

Lemma returns_get_json (p : payload) : returns anything (get_json p).
Proof. intros s. destruct p; exact I. Qed.

Lemma returns_commit : returns anything session_commit.
Proof.
  intros s. unfold session_commit.
  destruct (flush (store s) (todo s)) as [[ids db] | ]; exact I.
Qed.

Lemma returns_filter_by_category (v : value) :
  returns anything (Question_query_filter_by_category v).
Proof. intros s. destruct v; exact I. Qed.

Lemma returns_paginate (page per_page : Z) :
  returns anything (Question_query_paginate page per_page).
Proof.
  intros s. unfold Question_query_paginate.
  destruct (page <? 1); [exact I | ].
  destruct (per_page <? 0); [exact I | ].
  match goal with |- context [if ?c then _ else _] => destruct c end;
    exact I.
Qed.

Create HintDb views.

#[local] Hint Resolve returns_raise returns_abort returns_abort_if
  returns_get_json returns_commit returns_filter_by_category
  returns_paginate int_terminates get_terminates getitem_terminates
  : views.

(** One step through a view: split a [bind], close a primitive. *)
Ltac view_step :=
  lazymatch goal with
  | |- returns _ (let _ := _ in _) => cbv zeta
  | |- returns _ (bind _ _) => apply returns_bind; [ | intros ? ]
  | |- returns _ (lift _) => apply returns_lift; auto with views
  | |- returns _ (ret _) => apply returns_ret
  | |- returns _ _ => first [ solve [ auto with views ] | intros ?; exact I ]
  end.

(** A view wrapped in the handlers' [try]/[except]/[finally] answers 200
    with what its body returns, or else with the 422 body. *)
Lemma guarded_view_status (view : M (value * Z)) (db : Database) :
  returns (fun r => snd r = 200) view ->
  exists resp,
    fst (serve (finally (try_except view (on_exception (A:=value * Z)))
                        session_close) db) = Some resp
    /\ (status resp = 200 \/ resp = unprocesable_entity).
Proof.
  intros H. specialize (H (mkSession db [])).
  unfold serve, finally, try_except, on_exception.
  destruct (view (mkSession db [])) as [[[b c] | e | ] s']; simpl in *.
  - exists (mkResponse c b). split; [reflexivity | left; exact H].
  - exists unprocesable_entity. split; [reflexivity | right; reflexivity].
  - contradiction.
Qed.

(** ** Aborts inside [try] *)

(** C3: an [abort] raised inside the [try] block of a handler reaches the
    handler's own [except Exception] clause and leaves it as a 422; so
    [get_categories], [get_questions], [delete_question], [add_question]
    and [get_questions_by_category] answer every request with status 200
    or 422, never with 400 or 404. *)
Theorem abort_in_try_becomes_422 :
  (forall (code : Z) (s : Session),
      try_except (abort code) (on_exception (A:=value * Z)) s
      = (Raise (HTTPException 422), mkSession (store s) []))
  /\ answers_200_or_422 get_categories
  /\ (forall page_arg, answers_200_or_422 (get_questions page_arg))
  /\ (forall id, answers_200_or_422 (delete_question id))
  /\ (forall p, answers_200_or_422 (add_question p))
  /\ (forall id, answers_200_or_422 (get_questions_by_category id)).
Proof.
  split; [reflexivity | ].
  repeat split; intros; intro db; apply guarded_view_status.
  - repeat view_step. reflexivity.
  - repeat view_step. reflexivity.
  - apply returns_bind; [intros ?; exact I | intros found].
    destruct found as [question | ]; repeat view_step. reflexivity.
  - repeat view_step. reflexivity.
  - repeat view_step. reflexivity.
Qed.

(** ** Listing by category *)

(** Unfolds a view down to the primitives of the monad. *)
Ltac open_view :=
  unfold serve, finally, try_except, on_exception, bind, lift, ret,
    abort_if, abort, raise, session_close, session_rollback, get_json.

Ltac run_view := open_view; simpl.

Lemma is_empty_map {A B} (f : A -> B) (l : list A) :
  is_empty (map f l) = is_empty l.
Proof. destruct l; reflexivity. Qed.

(** C8: a 200 answer of GET /categories/id/questions lists exactly the
    questions whose category is the requested id: each listed question
    carries that category, every stored question of that category is
    listed, [total_questions] is their number and [current_category] is
    the id.  The answer is 200 as soon as one question matches. *)
Theorem category_listing_is_exact (db : Database) (id : Z) :
  exists resp,
    serve (get_questions_by_category id) db = (Some resp, db)
    /\ ((exists q, In q (questions db) /\ Question.category q = id) ->
        status resp = 200)
    /\ (status resp = 200 ->
        exists listed,
          field "questions" (body resp) = Some (VList listed)
          /\ (forall v, In v listed -> field "category" v = Some (VInt id))
          /\ (forall q, In q (questions db) -> Question.category q = id ->
                        In (Question.format q) listed)
          /\ field "total_questions" (body resp)
             = Some (VInt (Z.of_nat (len listed)))
          /\ field "current_category" (body resp) = Some (VInt id)).
Proof.
  unfold get_questions_by_category, Question_query_filter_by_category.
  run_view. rewrite is_empty_map.
  set (matching := filter (fun q => Question.category q =? id) (questions db)).
  assert (Hin : forall q, In q matching <->
                          In q (questions db) /\ Question.category q = id).
  { intros q. unfold matching. rewrite filter_In, Z.eqb_eq. reflexivity. }
  destruct matching as [ | q0 rest] eqn:E; simpl.
  - eexists. split; [reflexivity | ]. split.
    + intros [q Hq]. apply Hin in Hq. destruct Hq.
    + simpl. discriminate.
  - eexists. split; [reflexivity | ]. split; [reflexivity | ].
    intros _. exists (map Question.format (q0 :: rest)).
    split; [reflexivity | ]. split; [ | split; [ | split ] ].
    + intros v Hv. apply in_map_iff in Hv. destruct Hv as [q [<- Hq]].
      apply Hin in Hq. destruct Hq as [_ <-]. reflexivity.
    + intros q Hq Hc. apply in_map. apply Hin. split; assumption.
    + simpl. unfold len. rewrite length_map. reflexivity.
    + reflexivity.
Qed.

(** ** Pagination *)

Lemma limit_offset_length {A} (limit offset : Z) (rows : list A) :
  len (limit_offset limit offset rows)
  = Nat.min (Z.to_nat limit) (len rows - Z.to_nat offset).
Proof.
  unfold limit_offset, len. now rewrite length_firstn, length_skipn.
Qed.

Lemma page_total (rows : list Question.t) (page : Z) :
  let items := limit_offset 10 ((page - 1) * 10) rows in
  (if (page =? 1) && (Z.of_nat (len items) <? 10)
   then Z.of_nat (len items)
   else Z.of_nat (len rows)) = Z.of_nat (len rows).
Proof.
  intros items.
  destruct (page =? 1) eqn:Hp; simpl; [ | reflexivity].
  destruct (Z.of_nat (len items) <? 10) eqn:Hl; [ | reflexivity].
  apply Z.eqb_eq in Hp. subst page. apply Z.ltb_lt in Hl.
  unfold items in *. clear items.
  rewrite limit_offset_length in *. lia.
Qed.

(** C6: GET /questions with a page number inside the range of the stored
    questions (the default page is 1) is answered from the store without
    changing it, with 200 whenever a category exists; a 200 answer lists
    the questions of that page, at most 10, and its [total_questions] is
    the number of stored questions. *)
Theorem page_is_bounded_and_counted
    (db : Database) (page_arg : option string) (page : Z) :
  int (args_get page_arg (VInt 1)) = Ok page ->
  1 <= page ->
  (page - 1) * QUESTIONS_PER_PAGE < Z.of_nat (len (questions db)) ->
  exists resp,
    serve (get_questions page_arg) db = (Some resp, db)
    /\ (categories db <> [] -> status resp = 200)
    /\ (status resp = 200 ->
        exists listed,
          field "questions" (body resp) = Some (VList listed)
          /\ listed
             = map Question.format
                 (limit_offset 10 ((page - 1) * 10) (questions db))
          /\ (len listed <= 10)%nat
          /\ field "total_questions" (body resp)
             = Some (VInt (Z.of_nat (len (questions db))))).
Proof.
  intros Hint Hlo Hhi. unfold QUESTIONS_PER_PAGE in Hhi.
  unfold get_questions. run_view. rewrite Hint.
  unfold Question_query_paginate, QUESTIONS_PER_PAGE, Category_query_all.
  replace (page <? 1) with false by (symmetry; apply Z.ltb_ge; lia).
  simpl.
  pose proof (page_total (questions db) page) as Ht.
  pose proof (limit_offset_length 10 ((page - 1) * 10) (questions db)) as Hl.
  cbv zeta in Ht.
  set (items := limit_offset 10 ((page - 1) * 10) (questions db)) in *.
  assert (Hne : items <> []).
  { intros E. rewrite E in Hl. unfold len in Hl, Hhi. cbn [List.length] in Hl.
    lia. }
  destruct items as [ | q0 rest] eqn:E; [now elim Hne | ].
  cbn [is_empty andb]. rewrite Ht.
  cbn [fst snd map is_empty orb].
  destruct (categories db) as [ | c0 cs] eqn:Ec; simpl; rewrite ?Ec; simpl.
  - eexists. split; [reflexivity | ]. split.
    + intros H. now elim H.
    + simpl. discriminate.
  - eexists. split; [reflexivity | ]. split; [reflexivity | ].
    intros _. eexists. split; [reflexivity | ]. split; [reflexivity | ].
    split; [ | reflexivity].
    change (Question.format q0 :: map Question.format rest)
      with (map Question.format (q0 :: rest)).
    unfold len in *. rewrite length_map, Hl. lia.
Qed.

(** ** The quiz *)

Lemma get_field (v x : value) (k : string) :
  field k v = Some x -> get v k = Ok x.
Proof.
  destruct v; simpl; try discriminate. intros H. now rewrite H.
Qed.

Lemma getitem_field (v x : value) (k : string) :
  field k v = Some x -> getitem v k = Ok x.
Proof.
  destruct v; simpl; try discriminate. intros H. now rewrite H.
Qed.

Lemma get_of_dict (v x : value) (k : string) :
  field k v = Some x -> forall k', exists y, get v k' = Ok y.
Proof.
  destruct v; simpl; try discriminate. intros _ k'.
  destruct (dict_get d (KStr k')); eauto.
Qed.

(** The quiz view comes down to its loop over the eligible pool. *)
Lemma play_quiz_run (db : Database) (data qc prev : value) (c : Z)
    (fuel : nat) (rng : nat -> nat) :
  get data "previous_questions" = Ok prev ->
  field "quiz_category" data = Some qc ->
  field "id" qc = Some (VInt c) ->
  serve (play_quiz fuel rng (Json data)) db
  = match draw fuel rng 0 (eligible_pool db c) prev with
    | Ok q =>
        (Some (mkResponse 200 (obj [("success", VBool true);
                                    ("question", Question.format q)])), db)
    | Raise _ => (Some unprocesable_entity, db)
    | Hang => (None, db)
    end.
Proof.
  intros Hprev Hqc Hid.
  unfold play_quiz. run_view.
  rewrite Hprev, (get_field _ _ _ Hqc), (getitem_field _ _ _ Hid).
  unfold eligible_pool, eq_int.
  rewrite Z.eqb_sym.
  destruct (0 =? c); simpl;
    destruct (draw fuel rng 0 _ prev); reflexivity.
Qed.

Lemma choice_in {A} (r : nat) (seq : list A) (x : A) :
  choice r seq = Ok x -> In x seq.
Proof.
  destruct seq as [ | a seq']; [discriminate | ].
  intros H.
  assert (E : x = nth (r mod len (a :: seq'))%nat (a :: seq') a)
    by (unfold choice in H; congruence).
  rewrite E. apply nth_In. unfold len.
  apply Nat.mod_upper_bound. discriminate.
Qed.

Lemma seen_iff (i : Z) (ids : list Z) :
  existsb (eq_int i) (map VInt ids) = true <-> In i ids.
Proof.
  rewrite existsb_exists. split.
  - intros [v [Hv He]]. apply in_map_iff in Hv. destruct Hv as [j [<- Hj]].
    simpl in He. apply Z.eqb_eq in He. now subst.
  - intros H. exists (VInt i). split; [now apply in_map | ].
    simpl. apply Z.eqb_refl.
Qed.

Section Draws.

Variable rng : nat -> nat.
Variable pool : list Question.t.
Variable ids : list Z.

Let previous := VList (map VInt ids).

(** A question the loop leaves with is in the pool and was not served
    before. *)
Lemma draw_sound (fuel k : nat) (q : Question.t) :
  draw fuel rng k pool previous = Ok q ->
  In q pool /\ ~ In (Question.id q) ids.
Proof.
  revert k. induction fuel as [ | fuel IH]; intros k; simpl; [discriminate | ].
  destruct (choice (rng k) pool) as [x | e | ] eqn:Hc; try discriminate.
  destruct (existsb (eq_int (Question.id x)) (map VInt ids)) eqn:Hs.
  - apply IH.
  - intros H. injection H as <-. split.
    + eapply choice_in; eassumption.
    + intros Hin. apply seen_iff in Hin. congruence.
Qed.

(** Over a pool that has a question, the loop does not raise. *)
Lemma draw_no_raise (fuel k : nat) (e : exn) :
  pool <> [] -> draw fuel rng k pool previous <> Raise e.
Proof.
  intros Hne. revert k.
  induction fuel as [ | fuel IH]; intros k; simpl; [discriminate | ].
  destruct pool as [ | a pool'] eqn:Hp; [now elim Hne | ].
  unfold choice at 1. rewrite <- Hp in *.
  destruct (existsb (eq_int _) (map VInt ids)).
  - apply IH.
  - discriminate.
Qed.

(** When some draw lands on a question not served before, enough fuel
    lets the loop leave. *)
Lemma draw_progress (n k : nat) (q : Question.t) :
  choice (rng (k + n)) pool = Ok q ->
  ~ In (Question.id q) ids ->
  exists fuel q', draw fuel rng k pool previous = Ok q'.
Proof.
  revert k. induction n as [ | n IH]; intros k Hc Hq.
  - exists 1%nat, q. simpl. rewrite Nat.add_0_r in Hc. rewrite Hc.
    destruct (existsb (eq_int (Question.id q)) (map VInt ids)) eqn:Hs;
      [ | reflexivity].
    apply seen_iff in Hs. contradiction.
  - destruct (choice (rng k) pool) as [x | e | ] eqn:Hx.
    + destruct (existsb (eq_int (Question.id x)) (map VInt ids)) eqn:Hs.
      * destruct (IH (S k)) as [fuel [q' Hd]]; [ | assumption | ].
        { now rewrite Nat.add_succ_comm. }
        exists (S fuel), q'. simpl. now rewrite Hx, Hs.
      * exists 1%nat, x. simpl. now rewrite Hx, Hs.
    + destruct pool; discriminate.
    + destruct pool; discriminate.
Qed.

(** Over a pool whose questions were all served before, the loop is
    still running after any number of iterations. *)
Lemma draw_exhausted (fuel k : nat) :
  pool <> [] ->
  (forall q, In q pool -> In (Question.id q) ids) ->
  draw fuel rng k pool previous = Hang.
Proof.
  intros Hne Hall. revert k.
  induction fuel as [ | fuel IH]; intros k; simpl; [reflexivity | ].
  destruct (choice (rng k) pool) as [x | e | ] eqn:Hx.
  - assert (Hs : existsb (eq_int (Question.id x)) (map VInt ids) = true).
    { apply seen_iff, Hall. eapply choice_in; eassumption. }
    rewrite Hs. apply IH.
  - destruct pool; [now elim Hne | discriminate].
  - reflexivity.
Qed.

End Draws.

(** C1: when the eligible pool of a POST /quizzes request holds a question
    whose id is not in [previous_questions], every answer of the handler
    is a 200 whose question is in the eligible pool and has an id outside
    [previous_questions]; and the handler does answer as soon as one draw
    of the generator lands on such a question. *)
Theorem quiz_question_is_new
    (db : Database) (data qc : value) (ids : list Z) (c : Z) :
  field "previous_questions" data = Some (VList (map VInt ids)) ->
  field "quiz_category" data = Some qc ->
  field "id" qc = Some (VInt c) ->
  (exists q, In q (eligible_pool db c) /\ ~ In (Question.id q) ids) ->
  (forall fuel rng resp,
      fst (serve (play_quiz fuel rng (Json data)) db) = Some resp ->
      status resp = 200
      /\ exists q,
           field "question" (body resp) = Some (Question.format q)
           /\ In q (eligible_pool db c)
           /\ ~ In (Question.id q) ids)
  /\ (forall rng n q,
         choice (rng n) (eligible_pool db c) = Ok q ->
         ~ In (Question.id q) ids ->
         exists fuel resp,
           serve (play_quiz fuel rng (Json data)) db = (Some resp, db)
           /\ status resp = 200).
Proof.
  intros Hprev Hqc Hid [q0 [Hq0 _]].
  assert (Hne : eligible_pool db c <> []).
  { intros E. rewrite E in Hq0. exact Hq0. }
  apply get_field in Hprev.
  split.
  - intros fuel rng resp.
    rewrite (play_quiz_run db data qc _ c fuel rng Hprev Hqc Hid).
    destruct (draw fuel rng 0 (eligible_pool db c) (VList (map VInt ids)))
      as [q | e | ] eqn:Hd; simpl.
    + intros H. injection H as <-. split; [reflexivity | ].
      exists q. split; [reflexivity | ].
      eapply draw_sound; eassumption.
    + exfalso. eapply draw_no_raise; eassumption.
    + discriminate.
  - intros rng n q Hc Hq.
    destruct (draw_progress rng (eligible_pool db c) ids n 0 q Hc Hq)
      as [fuel [q' Hd]].
    exists fuel. eexists.
    rewrite (play_quiz_run db data qc _ c fuel rng Hprev Hqc Hid), Hd.
    split; reflexivity.
Qed.

(** C2 (the code departs from it): over an eligible pool that is not
    empty and whose ids are all in [previous_questions], the handler of
    POST /quizzes gives no answer, however many iterations its loop is
    allowed: it draws again for ever. *)
Theorem quiz_exhausted_pool_never_answers
    (db : Database) (data qc : value) (ids : list Z) (c : Z) :
  field "previous_questions" data = Some (VList (map VInt ids)) ->
  field "quiz_category" data = Some qc ->
  field "id" qc = Some (VInt c) ->
  eligible_pool db c <> [] ->
  (forall q, In q (eligible_pool db c) -> In (Question.id q) ids) ->
  forall fuel rng,
    serve (play_quiz fuel rng (Json data)) db = (None, db).
Proof.
  intros Hprev Hqc Hid Hne Hall fuel rng.
  apply get_field in Hprev.
  rewrite (play_quiz_run db data qc _ c fuel rng Hprev Hqc Hid).
  now rewrite draw_exhausted.
Qed.

(** C9: over an empty eligible pool (no question of the requested
    category, or no question at all) the first draw of POST /quizzes
    raises, the catch-all turns it into the 422 answer and the store is
    left as it was; the loop does not run on. *)
Theorem quiz_empty_pool_is_422
    (db : Database) (data qc : value) (c : Z) :
  field "quiz_category" data = Some qc ->
  field "id" qc = Some (VInt c) ->
  eligible_pool db c = [] ->
  forall fuel rng,
    serve (play_quiz (S fuel) rng (Json data)) db
    = (Some unprocesable_entity, db).
Proof.
  intros Hqc Hid Hempty fuel rng.
  destruct (get_of_dict data qc _ Hqc "previous_questions") as [prev Hprev].
  rewrite (play_quiz_run db data qc prev c (S fuel) rng Hprev Hqc Hid).
  rewrite Hempty. reflexivity.
Qed.

(** ** Creating and deleting questions *)

Lemma get_dict (d : list (key * value)) (k : string) :
  get (VDict d) k = Ok (lookup d k).
Proof. unfold get, lookup. now destruct (dict_get d (KStr k)). Qed.

(** POST /questions on a JSON object, case by case. *)
Lemma add_question_run (db : Database) (d : list (key * value)) :
  serve (add_question (Json (VDict d))) db
  = match int (lookup d "difficulty") with
    | Ok n =>
        if truthy (VDict d) && truthy (lookup d "question")
           && truthy (lookup d "answer") && truthy (VInt n)
           && truthy (lookup d "category")
        then
          match insert db (lookup d "question") (lookup d "answer") n
                       (lookup d "category") with
          | Some (i, db') =>
              (Some (mkResponse 200 (obj [("success", VBool true);
                                          ("id", VInt i)])), db')
          | None => (Some unprocesable_entity, db)
          end
        else (Some unprocesable_entity, db)
    | _ => (Some unprocesable_entity, db)
    end.
Proof.
  cbv beta iota zeta delta
    [add_question serve finally try_except bind lift ret get_json].
  rewrite !get_dict. run_view.
  pose proof (int_terminates (lookup d "difficulty")) as Hterm.
  destruct (int (lookup d "difficulty")) as [n | e | ];
    [ | reflexivity | now elim Hterm].
  match goal with
  | |- context [if negb ?c then _ else _] => destruct c
  end; simpl; [ | reflexivity].
  unfold session_commit. simpl.
  destruct (insert db (lookup d "question") (lookup d "answer") n
                   (lookup d "category")) as [[i db'] | ]; reflexivity.
Qed.

Lemma falsy_lookup (d : list (key * value)) (k : string) :
  falsy_or_missing (VDict d) k -> truthy (lookup d k) = false.
Proof.
  unfold falsy_or_missing, lookup, field.
  destruct (dict_get d (KStr k)); [trivial | reflexivity].
Qed.

Lemma int_of_falsy (v : value) (n : Z) :
  truthy v = false -> int v = Ok n -> truthy (VInt n) = false.
Proof.
  destruct v as [ | b | m | t | l | d]; simpl; try discriminate.
  - destruct b; [discriminate | ]. intros _ H. now injection H as <-.
  - intros H E. injection E as <-. exact H.
  - destruct t as [ | a t]; [discriminate | ].
    simpl. discriminate.
Qed.

(** C4 (the code departs from it): a POST /questions whose question,
    answer, difficulty or category is missing or falsy inserts no row,
    as claimed, but the answer is the 422 one and not a 400: the
    [abort(400)] is raised inside the [try] block, and a missing
    difficulty already fails in [int]. *)
Theorem add_question_falsy_field_is_422 (db : Database) (data : value)
    (k : string) :
  In k ["question"; "answer"; "difficulty"; "category"] ->
  falsy_or_missing data k ->
  serve (add_question (Json data)) db = (Some unprocesable_entity, db).
Proof.
  intros Hk Hf.
  destruct data as [ | b | m | t | l | d]; try reflexivity.
  rewrite add_question_run.
  destruct (int (lookup d "difficulty")) as [n | e | ] eqn:Hn;
    try reflexivity.
  match goal with |- (if ?c then _ else _) = _ =>
    assert (Hc : c = false); [ | now rewrite Hc] end.
  simpl in Hk.
  destruct Hk as [<- | [<- | [<- | [<- | []]]]];
    try (rewrite (falsy_lookup _ _ Hf); now rewrite ?andb_false_r).
  rewrite (int_of_falsy _ _ (falsy_lookup _ _ Hf) Hn).
  now rewrite ?andb_false_r.
Qed.

Lemma find_after_delete (rows : list Question.t) (q : Question.t) :
  find (has_id (Question.id q))
       (filter (fun r => negb (Question.id r =? Question.id q)) rows)
  = None.
Proof.
  induction rows as [ | r rows IH]; simpl; [reflexivity | ].
  destruct (Question.id r =? Question.id q) eqn:E; simpl; [exact IH | ].
  unfold has_id at 1. now rewrite E.
Qed.

Lemma delete_missing (db : Database) (id : Z) :
  find (has_id id) (questions db) = None ->
  serve (delete_question id) db = (Some unprocesable_entity, db).
Proof.
  unfold delete_question, Question_query_get. run_view.
  fold (has_id id). intros H. now rewrite H.
Qed.

Lemma delete_present (db : Database) (id : Z) (q : Question.t) :
  find (has_id id) (questions db) = Some q ->
  exists db',
    serve (delete_question id) db
    = (Some (mkResponse 200 (obj [("success", VBool true);
                                  ("id", VInt id)])), db')
    /\ questions db'
       = filter (fun r => negb (Question.id r =? id)) (questions db)
    /\ categories db' = categories db
    /\ find (has_id id) (questions db') = None.
Proof.
  unfold delete_question, Question_query_get. run_view.
  fold (has_id id). intros H. rewrite H. simpl.
  apply find_some in H. destruct H as [_ Hid].
  unfold has_id in Hid. apply Z.eqb_eq in Hid. subst id.
  exists (delete db q). repeat split. simpl. apply find_after_delete.
Qed.

Lemma find_last {A} (f : A -> bool) (l : list A) (x : A) :
  f x = true -> find f (l ++ [x])%list <> None.
Proof.
  intros Hx. induction l as [ | a l IH]; simpl.
  - now rewrite Hx.
  - destruct (f a); [discriminate | exact IH].
Qed.

(** A 200 answer of POST /questions carries the id of a stored row. *)
Lemma add_question_created (db db1 : Database) (data : value)
    (resp : response) :
  serve (add_question (Json data)) db = (Some resp, db1) ->
  status resp = 200 ->
  exists i,
    field "id" (body resp) = Some (VInt i)
    /\ find (has_id i) (questions db1) <> None.
Proof.
  intros Hs Hst.
  destruct data as [ | b | m | t | l | d];
    try (injection Hs as <- _; discriminate).
  rewrite add_question_run in Hs.
  destruct (int (lookup d "difficulty")) as [n | e | ];
    try (injection Hs as <- _; discriminate).
  destruct (truthy (VDict d) && truthy (lookup d "question")
            && truthy (lookup d "answer") && truthy (VInt n)
            && truthy (lookup d "category"));
    [ | injection Hs as <- _; discriminate].
  destruct (insert db (lookup d "question") (lookup d "answer") n
                   (lookup d "category")) as [[i db'] | ] eqn:Hi;
    [ | injection Hs as <- _; discriminate].
  injection Hs as <- <-. exists i. split; [reflexivity | ].
  unfold insert in Hi.
  destruct (lookup d "question"); try discriminate.
  destruct (lookup d "answer"); try discriminate.
  destruct (lookup d "category"); try discriminate.
  destruct (existsb _ (categories db)); [ | discriminate].
  injection Hi as <- <-. simpl. apply find_last.
  unfold has_id. simpl. apply Z.eqb_refl.
Qed.

(** C5 (the code departs from it): DELETE /questions/id for an id that
    no question has leaves the store as it was, as claimed, but answers
    with the 422 body and not with a 404, the [abort(404)] being raised
    inside the [try] block.  For an id that a question has, the answer is
    a 200 that carries the id, the rows of that id are gone and a lookup
    of the id finds nothing; so a question that was created can be
    deleted by the id its creation returned. *)
Theorem delete_question_outcomes (db : Database) (id : Z) :
  (find (has_id id) (questions db) = None ->
   serve (delete_question id) db = (Some unprocesable_entity, db))
  /\ (forall q,
         find (has_id id) (questions db) = Some q ->
         exists db',
           serve (delete_question id) db
           = (Some (mkResponse 200 (obj [("success", VBool true);
                                         ("id", VInt id)])), db')
           /\ questions db'
              = filter (fun r => negb (Question.id r =? id)) (questions db)
           /\ categories db' = categories db
           /\ find (has_id id) (questions db') = None)
  /\ (forall data resp db1,
         serve (add_question (Json data)) db = (Some resp, db1) ->
         status resp = 200 ->
         exists i db2,
           field "id" (body resp) = Some (VInt i)
           /\ serve (delete_question i) db1
              = (Some (mkResponse 200 (obj [("success", VBool true);
                                            ("id", VInt i)])), db2)
           /\ find (has_id i) (questions db2) = None).
Proof.
  split; [apply delete_missing | ].
  split; [apply delete_present | ].
  intros data resp db1 Hs Hst.
  destruct (add_question_created db db1 data resp Hs Hst) as [i [Hi Hf]].
  destruct (find (has_id i) (questions db1)) as [q | ] eqn:Hq;
    [ | now elim Hf].
  destruct (delete_present db1 i q Hq) as [db2 [Hd [_ [_ Hn]]]].
  exists i, db2. repeat split; assumption.
Qed.

(** ** Searching *)

Lemma starts_with_spec (t s : list ascii) :
  starts_with t s = true <-> exists post, s = (t ++ post)%list.
Proof.
  revert s. induction t as [ | a t IH]; intros s; simpl.
  - split; [intros _; now exists s | reflexivity].
  - destruct s as [ | b s]; simpl.
    + split; [discriminate | intros [post H]; discriminate].
    + rewrite andb_true_iff, Ascii.eqb_eq, IH. split.
      * intros [-> [post ->]]. now exists post.
      * intros [post H]. injection H as -> ->. split; [reflexivity | ].
        now exists post.
Qed.

(** [occurs_in] is the substring relation. *)
Lemma occurs_in_spec (t s : list ascii) :
  occurs_in t s = true <-> exists pre post, s = (pre ++ t ++ post)%list.
Proof.
  induction s as [ | b s IH]; simpl; rewrite orb_true_iff, starts_with_spec.
  - split.
    + intros [[post H] | H]; [ | discriminate]. now exists [], post.
    + intros [pre [post H]]. left.
      destruct pre; [now exists post | discriminate].
  - rewrite IH. split.
    + intros [[post H] | [pre [post H]]].
      * now exists [], post.
      * exists (b :: pre), post. simpl. now rewrite H.
    + intros [pre [post H]]. destruct pre as [ | c pre].
      * left. now exists post.
      * right. injection H as -> ->. now exists pre, post.
Qed.

Lemma like_percent (p s : list ascii) :
  like ("%"%char :: p) s
  = like p s
    || match s with
       | [] => false
       | _ :: s' => like ("%"%char :: p) s'
       end.
Proof. destruct s; reflexivity. Qed.

Lemma like_plain (c : ascii) (p s : list ascii) :
  plain_char c = true ->
  like (c :: p) s
  = match s with
    | [] => false
    | b :: s' => Ascii.eqb c b && like p s'
    end.
Proof.
  unfold plain_char. rewrite negb_true_iff, !orb_false_iff.
  intros [[H1 H2] H3]. simpl. now rewrite H1, H2, H3.
Qed.

Lemma like_any (s : list ascii) : like ["%"%char] s = true.
Proof.
  induction s as [ | b s IH]; [reflexivity | ].
  rewrite like_percent, IH. apply orb_true_r.
Qed.

Lemma like_prefix (t s : list ascii) :
  forallb plain_char t = true ->
  like (t ++ ["%"%char])%list s = starts_with t s.
Proof.
  revert s. induction t as [ | a t IH]; intros s Ht.
  - apply like_any.
  - simpl in Ht. apply andb_true_iff in Ht. destruct Ht as [Ha Ht].
    change ((a :: t) ++ ["%"%char])%list with (a :: t ++ ["%"%char])%list.
    rewrite like_plain by assumption.
    destruct s as [ | b s]; [reflexivity | ].
    simpl. now rewrite IH.
Qed.

(** Between two [%], a term without wildcards matches as a substring. *)
Lemma like_substring (t s : list ascii) :
  forallb plain_char t = true ->
  like ("%"%char :: t ++ ["%"%char])%list s = occurs_in t s.
Proof.
  intros Ht. induction s as [ | b s IH].
  - rewrite like_percent, like_prefix by assumption. reflexivity.
  - rewrite like_percent, like_prefix, IH by assumption. reflexivity.
Qed.

Lemma list_ascii_of_string_app (a b : string) :
  list_ascii_of_string (a ++ b)
  = (list_ascii_of_string a ++ list_ascii_of_string b)%list.
Proof. induction a as [ | c a IH]; simpl; [reflexivity | now rewrite IH]. Qed.

Lemma plain_char_lower (c : ascii) : plain_char (lower c) = plain_char c.
Proof.
  destruct c as [b0 b1 b2 b3 b4 b5 b6 b7].
  destruct b0, b1, b2, b3, b4, b5, b6, b7; reflexivity.
Qed.

Lemma ilike_substring (term text : string) :
  wildcard_free term = true ->
  ilike text ("%" ++ term ++ "%") = contains_ci term text.
Proof.
  intros Hw. unfold ilike, contains_ci.
  rewrite !list_ascii_of_string_app. simpl list_ascii_of_string.
  cbn [app].
  rewrite map_cons, map_app. change (map lower ["%"%char]) with ["%"%char].
  change (lower "%") with "%"%char.
  apply like_substring.
  unfold wildcard_free in Hw. rewrite forallb_forall in *.
  intros c Hc. apply in_map_iff in Hc. destruct Hc as [c' [<- Hc']].
  rewrite plain_char_lower. now apply Hw.
Qed.

(** A search whose term formats to text without wildcards. *)
Lemma search_run (repr_container : value -> string) (db : Database)
    (data v : value) :
  get data "searchTerm" = Ok v ->
  wildcard_free (str repr_container v) = true ->
  answers_with_matches repr_container db data (str repr_container v).
Proof.
  intros Hget Hw. unfold answers_with_matches, search_questions.
  unfold Question_query_filter_ilike. run_view. rewrite Hget. simpl.
  do 2 eexists. split; [reflexivity | ]. split; [reflexivity | ].
  split; [reflexivity | ]. split; [ | split; reflexivity].
  f_equal. apply filter_ext. intros q. now apply ilike_substring.
Qed.

(** C7, amended: for a search term without [%], [_] and backslash, POST
    /questions/search answers 200 with exactly the questions whose text
    contains the term as a substring, letter case apart, with
    [total_questions] the length of that list and [current_category]
    null; this holds whether or not a question matches. *)
Theorem search_lists_substring_matches (repr_container : value -> string)
    (db : Database) (data : value) (term : string) :
  field "searchTerm" data = Some (VStr term) ->
  wildcard_free term = true ->
  answers_with_matches repr_container db data term.
Proof.
  intros Hf Hw.
  apply (search_run repr_container db data (VStr term)).
  - now apply get_field.
  - exact Hw.
Qed.

(** C10: when the JSON object of a POST /questions/search has no
    [searchTerm] key the request is not rejected: the pattern is built
    from the text [None], and the answer is 200 with exactly the
    questions whose text contains [None], letter case apart. *)
Theorem search_without_term_uses_None (repr_container : value -> string)
    (db : Database) (d : list (key * value)) :
  dict_get d (KStr "searchTerm") = None ->
  str repr_container VNone = "None"
  /\ answers_with_matches repr_container db (VDict d) "None".
Proof.
  intros Hd. split; [reflexivity | ].
  apply (search_run repr_container db (VDict d) VNone).
  - simpl. now rewrite Hd.
  - reflexivity.
Qed.

(** ** Sample runs *)

Example int_strips_white_space : int (VStr " 12 ") = Ok 12.
Proof. reflexivity. Qed.

Example int_reads_single_underscores :
  int (VStr "1_0") = Ok 10 /\ int (VStr "1__0") = Raise ValueError.
Proof. split; reflexivity. Qed.

Example int_of_None_raises : int VNone = Raise TypeError.
Proof. reflexivity. Qed.

Example str_of_negative : str no_repr (VInt (-12)) = "-12".
Proof. reflexivity. Qed.

Example categories_are_keyed_by_id :
  fst (serve get_categories sample_db)
  = Some (mkResponse 200
            (obj [("success", VBool true);
                  ("categories",
                   VDict [(KInt 1, VStr "Science"); (KInt 2, VStr "Art");
                          (KInt 5, VStr "Entertainment")])])).
Proof. reflexivity. Qed.

Example search_title_finds_TITLE :
  fst (serve (search_questions no_repr
                (Json (obj [("searchTerm", VStr "title")]))) sample_db)
  = Some (mkResponse 200
            (obj [("success", VBool true);
                  ("questions", VList [Question.format film]);
                  ("total_questions", VInt 1);
                  ("current_category", VNone)])).
Proof. reflexivity. Qed.

Example search_underscore_lists_all :
  option_map (fun resp => field "total_questions" (body resp))
    (fst (serve (search_questions no_repr
                   (Json (obj [("searchTerm", VStr "_")]))) sample_db))
  = Some (Some (VInt 3)).
Proof. reflexivity. Qed.

Example second_page_has_two_questions :
  option_map (fun resp => (status resp, field "total_questions" (body resp)))
    (fst (serve (get_questions (Some "2")) twelve_db))
  = Some (200, Some (VInt 12)).
Proof. reflexivity. Qed.

Example third_page_is_422 :
  fst (serve (get_questions (Some "3")) twelve_db)
  = Some unprocesable_entity.
Proof. reflexivity. Qed.

Example created_question_takes_next_id :
  serve (add_question
           (Json (obj [("question", VStr "Which sea is the saltiest?");
                       ("answer", VStr "The Dead Sea");
                       ("difficulty", VStr "3");
                       ("category", VInt 1)]))) sample_db
  = (Some (mkResponse 200 (obj [("success", VBool true); ("id", VInt 4)])),
     mkDatabase
       [film; planet; painter;
        Question.mk 4 "Which sea is the saltiest?" "The Dead Sea" 3 1]
       (categories sample_db) 5).
Proof. reflexivity. Qed.

Example malformed_body_is_422 :
  serve (add_question BadJson) sample_db
  = (Some unprocesable_entity, sample_db).
Proof. reflexivity. Qed.

Example quiz_skips_previous_questions :
  fst (serve (play_quiz 5 (fun k => k) (Json (quiz_request [1; 2] 0)))
             sample_db)
  = Some (mkResponse 200 (obj [("success", VBool true);
                               ("question", Question.format painter)])).
Proof. reflexivity. Qed.

(** ** The theorems at sample requests *)

Lemma quiz_question_is_new_witness :
  exists fuel resp,
    serve (play_quiz fuel (fun _ => 1%nat) (Json (quiz_request [1] 0)))
          sample_db = (Some resp, sample_db)
    /\ status resp = 200.
Proof.
  destruct (quiz_question_is_new sample_db (quiz_request [1] 0)
              (obj [("id", VInt 0)]) [1] 0) as [_ H].
  - reflexivity.
  - reflexivity.
  - reflexivity.
  - exists planet. split; [simpl; auto | simpl; lia].
  - apply (H (fun _ => 1%nat) 0%nat planet); [reflexivity | simpl; lia].
Defined.

Lemma quiz_exhausted_pool_never_answers_witness :
  serve (play_quiz 50 (fun k => k) (Json (quiz_request [3; 1; 2] 0)))
        sample_db = (None, sample_db).
Proof.
  apply (quiz_exhausted_pool_never_answers sample_db
           (quiz_request [3; 1; 2] 0) (obj [("id", VInt 0)]) [3; 1; 2] 0).
  - reflexivity.
  - reflexivity.
  - reflexivity.
  - discriminate.
  - simpl. intros q [<- | [<- | [<- | []]]]; simpl; lia.
Defined.

Lemma quiz_empty_pool_is_422_witness :
  serve (play_quiz 1 (fun k => k) (Json (quiz_request [] 4))) sample_db
  = (Some unprocesable_entity, sample_db).
Proof.
  apply (quiz_empty_pool_is_422 sample_db (quiz_request [] 4)
           (obj [("id", VInt 4)]) 4); reflexivity.
Defined.

Lemma add_question_falsy_field_is_422_witness :
  serve (add_question
           (Json (obj [("question", VStr "Which sea is the saltiest?");
                       ("answer", VStr "The Dead Sea");
                       ("difficulty", VInt 0);
                       ("category", VInt 1)]))) sample_db
  = (Some unprocesable_entity, sample_db).
Proof.
  apply (add_question_falsy_field_is_422 sample_db _ "difficulty").
  - simpl. auto.
  - reflexivity.
Defined.

Lemma delete_question_outcomes_witness :
  serve (delete_question 9) sample_db = (Some unprocesable_entity, sample_db).
Proof.
  destruct (delete_question_outcomes sample_db 9) as [H _].
  apply H. reflexivity.
Defined.

Lemma page_is_bounded_and_counted_witness :
  exists resp,
    serve (get_questions (Some "2")) twelve_db = (Some resp, twelve_db)
    /\ status resp = 200.
Proof.
  destruct (page_is_bounded_and_counted twelve_db (Some "2") 2)
    as [resp [Hs [Hc _]]].
  - reflexivity.
  - lia.
  - simpl. lia.
  - exists resp. split; [exact Hs | ]. apply Hc. discriminate.
Defined.

Lemma category_listing_is_exact_witness :
  exists resp,
    serve (get_questions_by_category 2) sample_db = (Some resp, sample_db)
    /\ status resp = 200.
Proof.
  destruct (category_listing_is_exact sample_db 2) as [resp [Hs [Hc _]]].
  exists resp. split; [exact Hs | ]. apply Hc.
  exists painter. split; [simpl; auto | reflexivity].
Defined.

Lemma search_lists_substring_matches_witness :
  answers_with_matches no_repr sample_db
    (obj [("searchTerm", VStr "title")]) "title".
Proof.
  apply (search_lists_substring_matches no_repr sample_db
           (obj [("searchTerm", VStr "title")]) "title"); reflexivity.
Defined.

Lemma search_without_term_uses_None_witness :
  answers_with_matches no_repr sample_db (VDict []) "None".
Proof.
  apply (search_without_term_uses_None no_repr sample_db []). reflexivity.
Defined.

(** C7 as stated fails on a term that [LIKE] reads as a wildcard: the
    search for an underscore lists the three sample questions, none of
    which contains one. *)
Lemma search_underscore_is_a_wildcard :
  ~ answers_with_matches no_repr sample_db
      (obj [("searchTerm", VStr "_")]) "_".
Proof.
  intros [resp [listed [Hs [_ [Hq [Hl _]]]]]].
  vm_compute in Hs. injection Hs as <-.
  vm_compute in Hq, Hl. rewrite Hl in Hq. discriminate.
Qed.

(** * Further properties of the views *)

(** ** Answers and the success flag *)

Lemma ends_with_ret {A} (P : A -> Prop) (a : A) : P a -> ends_with P (ret a).
Proof. intros H s. exact H. Qed.

Lemma ends_with_raise {A} (P : A -> Prop) (e : exn) : ends_with P (raise e).
Proof. intros s. exact I. Qed.

Lemma ends_with_bind {A B} (P : B -> Prop) (m : M A) (f : A -> M B) :
  (forall a, ends_with P (f a)) -> ends_with P (bind m f).
Proof.
  intros Hf s. unfold bind.
  destruct (m s) as [[a | e | ] s']; simpl; try exact I. apply Hf.
Qed.

Ltac ends_step :=
  lazymatch goal with
  | |- ends_with _ (let _ := _ in _) => cbv zeta
  | |- ends_with _ (bind _ _) => apply ends_with_bind; intros ?
  | |- ends_with _ (ret _) => apply ends_with_ret; split; reflexivity
  | |- ends_with _ (abort _) => apply ends_with_raise
  end.

Lemma guarded_view_answer (view : M (value * Z)) :
  ends_with success_200 view ->
  answers_success_or_422
    (finally (try_except view (on_exception (A:=value * Z))) session_close).
Proof.
  intros H db resp. specialize (H (mkSession db [])).
  unfold serve, finally, try_except, on_exception.
  destruct (view (mkSession db [])) as [[[b c] | e | ] s']; simpl in *.
  - intros E. injection E as <-. left. exact H.
  - intros E. injection E as <-. right. reflexivity.
  - discriminate.
Qed.

(** X1: whatever the request, an answer of any of the seven views is
    either a 200 whose body has [success] true or the 422 body, whose
    [success] is false; none of them answers through the handlers
    registered for 400, 404 and 500. *)
Theorem every_answer_is_success_or_422 (repr_container : value -> string) :
  answers_success_or_422 get_categories
  /\ (forall page_arg, answers_success_or_422 (get_questions page_arg))
  /\ (forall id, answers_success_or_422 (delete_question id))
  /\ (forall p, answers_success_or_422 (add_question p))
  /\ (forall p,
         answers_success_or_422 (search_questions repr_container p))
  /\ (forall id, answers_success_or_422 (get_questions_by_category id))
  /\ (forall fuel rng p, answers_success_or_422 (play_quiz fuel rng p))
  /\ field "success" (body unprocesable_entity) = Some (VBool false).
Proof.
  repeat split; intros; try apply guarded_view_answer.
  - repeat ends_step.
  - repeat ends_step.
  - ends_step. destruct a as [question | ]; repeat ends_step.
  - repeat ends_step.
  - repeat ends_step.
  - repeat ends_step.
  - repeat ends_step.
Qed.

(** ** Reads leave the store alone *)

Lemma keeps_ret {A} (a : A) : keeps_store (ret a).
Proof. intros s. reflexivity. Qed.

Lemma keeps_raise {A} (e : exn) : keeps_store (raise (A:=A) e).
Proof. intros s. reflexivity. Qed.

Lemma keeps_lift {A} (r : result A) : keeps_store (lift r).
Proof. intros s. reflexivity. Qed.

Lemma keeps_bind {A B} (m : M A) (f : A -> M B) :
  keeps_store m -> (forall a, keeps_store (f a)) -> keeps_store (bind m f).
Proof.
  intros Hm Hf s. unfold bind. specialize (Hm s).
  destruct (m s) as [[a | e | ] s']; simpl in *; try exact Hm.
  now rewrite Hf.
Qed.

Lemma keeps_try_except {A} (m : M A) (h : exn -> M A) :
  keeps_store m -> (forall e, keeps_store (h e)) ->
  keeps_store (try_except m h).
Proof.
  intros Hm Hh s. unfold try_except. specialize (Hm s).
  destruct (m s) as [[a | e | ] s']; simpl in *; try exact Hm.
  now rewrite Hh.
Qed.

Lemma keeps_finally {A} (m : M A) (c : M unit) :
  keeps_store m -> keeps_store c -> keeps_store (finally m c).
Proof.
  intros Hm Hc s. unfold finally. specialize (Hm s).
  destruct (m s) as [[a | e | ] s']; simpl in *; try exact Hm;
    specialize (Hc s'); destruct (c s') as [[u | e' | ] s'']; simpl in *;
    congruence.
Qed.

Lemma keeps_on_exception {A} (e : exn) : keeps_store (on_exception (A:=A) e).
Proof. intros s. reflexivity. Qed.

Lemma keeps_close : keeps_store session_close.
Proof. intros s. reflexivity. Qed.

Lemma keeps_abort_if (cond : bool) (code : Z) :
  keeps_store (abort_if cond code).
Proof. intros s. unfold abort_if. now destruct cond. Qed.

Lemma keeps_get_json (p : payload) : keeps_store (get_json p).
Proof. intros s. now destruct p. Qed.

Lemma keeps_filter_by_category (v : value) :
  keeps_store (Question_query_filter_by_category v).
Proof. intros s. now destruct v. Qed.

Lemma keeps_paginate (page per_page : Z) :
  keeps_store (Question_query_paginate page per_page).
Proof.
  intros s. unfold Question_query_paginate.
  destruct (page <? 1); [reflexivity | ].
  destruct (per_page <? 0); [reflexivity | ].
  match goal with |- context [if ?c then _ else _] => destruct c end;
    reflexivity.
Qed.

#[local] Hint Resolve keeps_ret keeps_raise keeps_lift keeps_on_exception
  keeps_close keeps_abort_if keeps_get_json keeps_filter_by_category
  keeps_paginate : views.

Ltac keeps_step :=
  lazymatch goal with
  | |- keeps_store (let _ := _ in _) => cbv zeta
  | |- keeps_store (finally _ _) => apply keeps_finally
  | |- keeps_store (try_except _ _) => apply keeps_try_except; [ | intros ? ]
  | |- keeps_store (bind _ _) => apply keeps_bind; [ | intros ? ]
  | |- keeps_store (if _ then _ else _) =>
      match goal with |- context [if ?c then _ else _] => destruct c end
  | |- keeps_store _ =>
      first [ solve [ auto with views ] | intros ?; reflexivity ]
  end.

Lemma keeps_serve (view : M (value * Z)) (db : Database) :
  keeps_store view -> snd (serve view db) = db.
Proof.
  intros H. unfold serve. specialize (H (mkSession db [])).
  destruct (view (mkSession db [])) as [out s]. exact H.
Qed.

(** X2: the views that only read (the two listings of questions, the
    listing of categories, the search and the quiz) leave the store as it
    was on every request, answered with 200, with 422 or not at all. *)
Theorem reading_views_keep_the_store (repr_container : value -> string)
    (db : Database) :
  snd (serve get_categories db) = db
  /\ (forall page_arg, snd (serve (get_questions page_arg) db) = db)
  /\ (forall p, snd (serve (search_questions repr_container p) db) = db)
  /\ (forall id, snd (serve (get_questions_by_category id) db) = db)
  /\ (forall fuel rng p, snd (serve (play_quiz fuel rng p) db) = db).
Proof.
  repeat split; intros; apply keeps_serve.
  - unfold get_categories. repeat keeps_step.
  - unfold get_questions. repeat keeps_step.
  - unfold search_questions. repeat keeps_step.
  - unfold get_questions_by_category. repeat keeps_step.
  - unfold play_quiz. repeat keeps_step.
Qed.

Lemma add_question_not_object (db : Database) (p : payload) :
  (forall d, p <> Json (VDict d)) ->
  serve (add_question p) db = (Some unprocesable_entity, db).
Proof.
  intros H. destruct p as [ | | v]; try reflexivity.
  destruct v; try reflexivity. now elim (H d).
Qed.


(** ** Creating a question *)

Lemma field_lookup (d : list (key * value)) (k : string) (v : value) :
  field k (VDict d) = Some v -> lookup d k = v.
Proof. unfold field, lookup. intros H. now rewrite H. Qed.

Lemma existsb_category (cs : list Category.t) (c : Z) :
  existsb (fun k => Category.id k =? c) cs = true
  <-> exists k, In k cs /\ Category.id k = c.
Proof.
  rewrite existsb_exists. split; intros [k [Hk E]]; exists k; split;
    try assumption; now apply Z.eqb_eq.
Qed.



(** ** Ids *)

Lemma delete_run (db : Database) (id : Z) (q : Question.t) :
  find (has_id id) (questions db) = Some q ->
  serve (delete_question id) db
  = (Some (mkResponse 200 (obj [("success", VBool true);
                                ("id", VInt id)])), delete db q)
    /\ Question.id q = id.
Proof.
  unfold delete_question, Question_query_get. run_view.
  fold (has_id id). intros H. rewrite H. simpl.
  apply find_some in H. destruct H as [_ Hid].
  unfold has_id in Hid. apply Z.eqb_eq in Hid. now subst id.
Qed.

Lemma ids_after_delete (rows : list Question.t) (id : Z) :
  map Question.id (filter (fun r => negb (Question.id r =? id)) rows)
  = filter (fun i => negb (i =? id)) (map Question.id rows).
Proof.
  induction rows as [ | r rows IH]; [reflexivity | ].
  cbn [filter map]. destruct (negb (Question.id r =? id)); cbn [map];
    now rewrite IH.
Qed.

Lemma well_formed_delete (db : Database) (q : Question.t) :
  well_formed db -> well_formed (delete db q).
Proof.
  intros [Hn Hb]. split; simpl.
  - rewrite ids_after_delete. now apply NoDup_filter.
  - rewrite Forall_forall in *. intros x Hx. apply filter_In in Hx.
    now apply Hb.
Qed.

Lemma well_formed_insert (db : Database) (q a : string) (n c : Z) :
  well_formed db ->
  well_formed (mkDatabase
                 (questions db ++ [Question.mk (next_id db) q a n c])
                 (categories db) (next_id db + 1)).
Proof.
  intros [Hn Hb]. split; simpl.
  - rewrite map_app. simpl. apply NoDup_app; [exact Hn | | ].
    + constructor; [intros [] | constructor].
    + intros i Hi [<- | []]. apply in_map_iff in Hi.
      destruct Hi as [x [E Hx]]. rewrite Forall_forall in Hb.
      specialize (Hb x Hx). lia.
  - apply Forall_app. split.
    + rewrite Forall_forall in *. intros x Hx. specialize (Hb x Hx). lia.
    + constructor; [simpl; lia | constructor].
Qed.

Lemma add_question_store (db : Database) (p : payload) :
  snd (serve (add_question p) db) = db
  \/ exists q a n c,
       snd (serve (add_question p) db)
       = mkDatabase (questions db ++ [Question.mk (next_id db) q a n c])
                    (categories db) (next_id db + 1).
Proof.
  destruct p as [ | | v];
    try (rewrite add_question_not_object by discriminate; now left).
  destruct v as [ | b | m | t | l | d];
    try (rewrite add_question_not_object by discriminate; now left).
  rewrite add_question_run.
  destruct (int (lookup d "difficulty")) as [n | e | ]; try now left.
  match goal with |- context [if ?c then _ else _] => destruct c end;
    try now left.
  unfold insert.
  destruct (lookup d "question") as [ | | | q | | ]; try now left.
  destruct (lookup d "answer") as [ | | | a | | ]; try now left.
  destruct (lookup d "category") as [ | | c | | | ]; try now left.
  destruct (existsb _ (categories db)); try now left.
  right. now exists q, a, n, c.
Qed.

(** X6: the two writing views keep the ids in order: when the ids of the
    stored questions are pairwise distinct and below the next value of the
    id sequence, they still are after any POST /questions and after any
    DELETE /questions/id, and the sequence never steps back. *)
Theorem writes_keep_ids_distinct (db : Database) :
  well_formed db ->
  (forall p,
      well_formed (snd (serve (add_question p) db))
      /\ next_id db <= next_id (snd (serve (add_question p) db)))
  /\ (forall id,
         well_formed (snd (serve (delete_question id) db))
         /\ next_id db <= next_id (snd (serve (delete_question id) db))).
Proof.
  intros Hwf. split.
  - intros p.
    destruct (add_question_store db p) as [-> | [q [a [n [c ->]]]]].
    + split; [exact Hwf | lia].
    + split; [now apply well_formed_insert | simpl; lia].
  - intros id.
    destruct (find (has_id id) (questions db)) as [q | ] eqn:Hq.
    + destruct (delete_run db id q Hq) as [Hd _]. rewrite Hd. simpl.
      split; [now apply well_formed_delete | lia].
    + rewrite (delete_missing db id Hq). simpl. split; [exact Hwf | lia].
Qed.

Lemma find_filter_other (rows : list Question.t) (id j : Z) :
  j <> id ->
  find (has_id j) (filter (fun r => negb (Question.id r =? id)) rows)
  = find (has_id j) rows.
Proof.
  intros Hj. induction rows as [ | r rows IH]; simpl; [reflexivity | ].
  destruct (Question.id r =? id) eqn:E; simpl.
  - unfold has_id at 2. apply Z.eqb_eq in E.
    replace (Question.id r =? j) with false; [exact IH | ].
    symmetry. apply Z.eqb_neq. lia.
  - now rewrite IH.
Qed.

Lemma filter_out_one (rows : list Question.t) (id : Z) :
  NoDup (map Question.id rows) ->
  In id (map Question.id rows) ->
  len rows
  = S (len (filter (fun r => negb (Question.id r =? id)) rows)).
Proof.
  unfold len. induction rows as [ | r rows IH]; simpl; intros Hn Hin;
    [contradiction | ].
  inversion Hn as [ | x l Hx Hl]; subst.
  destruct (Question.id r =? id) eqn:E; simpl.
  - apply Z.eqb_eq in E. f_equal.
    assert (Hall : forall x, In x rows ->
                     negb (Question.id x =? id) = true).
    { intros x Hxin. apply negb_true_iff, Z.eqb_neq. intros E'.
      apply Hx. rewrite E, <- E'. now apply in_map. }
    clear - Hall. induction rows as [ | y rows IH]; [reflexivity | ].
    simpl. rewrite (Hall y (or_introl eq_refl)). simpl. f_equal.
    apply IH. intros x Hxin. apply Hall. now right.
  - f_equal. apply IH; [exact Hl | ].
    destruct Hin as [Hin | Hin]; [ | exact Hin].
    apply Z.eqb_neq in E. contradiction.
Qed.

(** X7: a DELETE /questions/id of a stored question removes that
    question and nothing else: a lookup of any other id gives what it gave
    before, the categories and the id sequence are as they were, and with
    pairwise distinct ids the store has exactly one question less. *)
Theorem delete_leaves_the_others (db : Database) (id : Z) (q : Question.t) :
  find (has_id id) (questions db) = Some q ->
  exists db',
    snd (serve (delete_question id) db) = db'
    /\ (forall j, j <> id ->
          find (has_id j) (questions db') = find (has_id j) (questions db))
    /\ categories db' = categories db
    /\ next_id db' = next_id db
    /\ (NoDup (map Question.id (questions db)) ->
        len (questions db) = S (len (questions db'))).
Proof.
  intros Hq. destruct (delete_run db id q Hq) as [Hd Hid].
  exists (delete db q). rewrite Hd. subst id. simpl.
  split; [reflexivity | ]. split; [ | split; [reflexivity | split]].
  - intros j Hj. now apply find_filter_other.
  - reflexivity.
  - intros Hn. apply filter_out_one; [exact Hn | ].
    apply find_some in Hq. destruct Hq as [Hin _]. now apply in_map.
Qed.

(** X8: deleting is not repeatable: once a DELETE /questions/id has been
    answered with 200, the same request on the store it left is answered
    with the 422 body and changes nothing. *)
Theorem delete_twice_is_422 (db : Database) (id : Z) (q : Question.t) :
  find (has_id id) (questions db) = Some q ->
  exists db',
    serve (delete_question id) db
    = (Some (mkResponse 200 (obj [("success", VBool true);
                                  ("id", VInt id)])), db')
    /\ serve (delete_question id) db' = (Some unprocesable_entity, db').
Proof.
  intros Hq. destruct (delete_run db id q Hq) as [Hd Hid].
  exists (delete db q). split; [exact Hd | ].
  apply delete_missing. subst id. simpl. apply find_after_delete.
Qed.

(** ** Categories *)

Lemma key_eqb_eq (a b : key) : key_eqb a b = true <-> a = b.
Proof.
  destruct a as [s | n], b as [t | m]; simpl;
    try (split; discriminate).
  - rewrite String.eqb_eq. split; congruence.
  - rewrite Z.eqb_eq. split; congruence.
Qed.

(** Reading a dict after an assignment. *)
Lemma dict_get_set (d : list (key * value)) (k k' : key) (v : value) :
  dict_get (dict_set d k v) k'
  = if key_eqb k k' then Some v else dict_get d k'.
Proof.
  induction d as [ | [k0 v0] d IH]; simpl; [reflexivity | ].
  destruct (key_eqb k0 k) eqn:E; simpl.
  - apply key_eqb_eq in E. subst k0. now destruct (key_eqb k k').
  - rewrite IH. destruct (key_eqb k0 k') eqn:E'; [ | reflexivity].
    apply key_eqb_eq in E'. subst k'.
    destruct (key_eqb k k0) eqn:E2; [ | reflexivity].
    apply key_eqb_eq in E2. subst k0.
    assert (Hr : key_eqb k k = true) by now apply key_eqb_eq.
    congruence.
Qed.

Lemma find_snoc {A} (f : A -> bool) (l : list A) (x : A) :
  find f (l ++ [x])%list
  = match find f l with
    | Some y => Some y
    | None => if f x then Some x else None
    end.
Proof.
  induction l as [ | a l IH]; simpl; [reflexivity | ].
  now destruct (f a).
Qed.

Lemma categories_fold (cs : list Category.t) (d : list (key * value))
    (i : Z) :
  dict_get
    (fold_left
       (fun d category =>
          dict_set d (KInt (Category.id category))
                   (VStr (Category.type category)))
       cs d) (KInt i)
  = match find (fun c => Category.id c =? i) (rev cs) with
    | Some c => Some (VStr (Category.type c))
    | None => dict_get d (KInt i)
    end.
Proof.
  revert d. induction cs as [ | c cs IH]; intros d; simpl; [reflexivity | ].
  rewrite IH, find_snoc, dict_get_set. simpl.
  destruct (find (fun c0 => Category.id c0 =? i) (rev cs)); [reflexivity | ].
  now destruct (Category.id c =? i).
Qed.

(** X9: GET /categories answers the 422 body when there is no category;
    otherwise it answers 200 with a dict that has a key for exactly the
    ids of the stored categories, each id giving the type of the last
    stored category with that id. *)
Theorem categories_are_keyed_by_their_id (db : Database) :
  (categories db = [] ->
   serve get_categories db = (Some unprocesable_entity, db))
  /\ (categories db <> [] ->
      exists d,
        serve get_categories db
        = (Some (mkResponse 200 (obj [("success", VBool true);
                                      ("categories", VDict d)])), db)
        /\ forall i,
             dict_get d (KInt i)
             = option_map (fun c => VStr (Category.type c))
                 (find (fun c => Category.id c =? i)
                       (rev (categories db)))).
Proof.
  unfold get_categories, Category_query_all. run_view. split.
  - intros E. now rewrite E.
  - intros Hne. destruct (categories db) as [ | c cs] eqn:E;
      [now elim Hne | ].
    cbn [is_empty]. eexists. split; [reflexivity | ].
    intros i. unfold categories_dict. rewrite categories_fold.
    now destruct (find _ (rev (c :: cs))).
Qed.

(** ** Listing by category, again *)

Lemma category_listing_run (db : Database) (id : Z) :
  serve (get_questions_by_category id) db
  = let found :=
      filter (fun q => Question.category q =? id) (questions db) in
    if is_empty found then (Some unprocesable_entity, db)
    else
      (Some (mkResponse 200
               (obj [("success", VBool true);
                     ("total_questions", VInt (Z.of_nat (len found)));
                     ("questions", VList (map Question.format found));
                     ("current_category", VInt id)])), db).
Proof.
  unfold get_questions_by_category, Question_query_filter_by_category.
  run_view. rewrite is_empty_map.
  now destruct (filter _ (questions db)).
Qed.

(** X10: GET /categories/id/questions answers the 422 body exactly when
    no stored question has the category id: an empty listing is an error
    there, and the only one. *)
Theorem category_listing_is_422_iff_empty (db : Database) (id : Z) :
  fst (serve (get_questions_by_category id) db) = Some unprocesable_entity
  <-> (forall q, In q (questions db) -> Question.category q <> id).
Proof.
  rewrite category_listing_run. cbv zeta.
  destruct (filter (fun q => Question.category q =? id) (questions db))
    as [ | q0 rest] eqn:E; simpl.
  - split; [ | reflexivity]. intros _ q Hq Hc.
    assert (Hin : In q []).
    { rewrite <- E. apply filter_In. split; [exact Hq | ].
      now apply Z.eqb_eq. }
    exact Hin.
  - split; [discriminate | ]. intros H. exfalso.
    assert (Hin : In q0 (q0 :: rest)) by now left.
    rewrite <- E in Hin. apply filter_In in Hin. destruct Hin as [Hq Hc].
    apply Z.eqb_eq in Hc. exact (H q0 Hq Hc).
Qed.

Lemma add_question_new_row (db db' : Database) (p : payload)
    (resp : response) :
  serve (add_question p) db = (Some resp, db') ->
  status resp = 200 ->
  exists row,
    Question.id row = next_id db
    /\ field "id" (body resp) = Some (VInt (next_id db))
    /\ (exists k, In k (categories db)
                  /\ Category.id k = Question.category row)
    /\ db' = mkDatabase (questions db ++ [row]) (categories db)
                        (next_id db + 1).
Proof.
  intros Hs Hst.
  destruct p as [ | | v];
    try (rewrite add_question_not_object in Hs by discriminate;
         injection Hs as <- _; discriminate).
  destruct v as [ | b | m | t | l | d];
    try (rewrite add_question_not_object in Hs by discriminate;
         injection Hs as <- _; discriminate).
  rewrite add_question_run in Hs.
  destruct (int (lookup d "difficulty")) as [n | e | ];
    try (injection Hs as <- _; discriminate).
  match type of Hs with (if ?c then _ else _) = _ => destruct c end;
    [ | injection Hs as <- _; discriminate].
  destruct (insert db (lookup d "question") (lookup d "answer") n
                   (lookup d "category")) as [[i db1] | ] eqn:Hi;
    [ | injection Hs as <- _; discriminate].
  injection Hs as <- <-. unfold insert in Hi.
  destruct (lookup d "question") as [ | | | q | | ]; try discriminate.
  destruct (lookup d "answer") as [ | | | a | | ]; try discriminate.
  destruct (lookup d "category") as [ | | c | | | ]; try discriminate.
  destruct (existsb _ (categories db)) eqn:Hk; [ | discriminate].
  injection Hi as <- <-.
  exists (Question.mk (next_id db) q a n c).
  repeat split. now apply existsb_category.
Qed.

(** X11: a question that POST /questions has stored is listed under its
    category: on the store the 200 answer left, GET /categories/c/questions
    for the category of the new row answers 200 and its list holds the new
    question under the id that the creation returned. *)
Theorem created_question_is_listed (db db' : Database) (p : payload)
    (resp : response) :
  serve (add_question p) db = (Some resp, db') ->
  status resp = 200 ->
  exists row listing listed,
    field "id" (body resp) = Some (VInt (Question.id row))
    /\ serve (get_questions_by_category (Question.category row)) db'
       = (Some listing, db')
    /\ status listing = 200
    /\ field "questions" (body listing) = Some (VList listed)
    /\ In (Question.format row) listed.
Proof.
  intros Hs Hst.
  destruct (add_question_new_row db db' p resp Hs Hst)
    as [row [Hid [Hf [_ ->]]]].
  exists row. rewrite category_listing_run. cbv zeta.
  set (db1 := mkDatabase (questions db ++ [row]) (categories db)
                          (next_id db + 1)).
  assert (Hin : In row (filter (fun q => Question.category q
                                         =? Question.category row)
                               (questions db1))).
  { apply filter_In. split; [ | apply Z.eqb_refl].
    simpl. apply in_or_app. right. now left. }
  destruct (filter _ (questions db1)) as [ | q0 rest] eqn:E;
    [contradiction | ].
  cbn [is_empty]. do 2 eexists.
  split; [now rewrite Hid | ]. split; [reflexivity | ].
  split; [reflexivity | ]. split; [reflexivity | ].
  now apply in_map.
Qed.

(** ** Pages out of range *)

(** X12: GET /questions answers the 422 body, and leaves the store alone,
    in each of the cases that the range of pages excludes: a [page]
    argument that [int] does not read, a page below 1, a page beyond the
    last stored question (page 1 of an empty store included), and a store
    without categories. *)
Theorem page_out_of_range_is_422 (db : Database) (page_arg : option string) :
  (forall page,
      int (args_get page_arg (VInt 1)) = Ok page ->
      page < 1
      \/ Z.of_nat (len (questions db)) <= (page - 1) * QUESTIONS_PER_PAGE
      \/ categories db = []) ->
  serve (get_questions page_arg) db = (Some unprocesable_entity, db).
Proof.
  intros H. unfold get_questions. run_view.
  pose proof (int_terminates (args_get page_arg (VInt 1))) as Hterm.
  destruct (int (args_get page_arg (VInt 1))) as [page | e | ];
    [ | reflexivity | now elim Hterm].
  specialize (H page eq_refl).
  unfold Question_query_paginate, QUESTIONS_PER_PAGE, Category_query_all
    in *.
  destruct (page <? 1) eqn:Hp; [reflexivity | ].
  apply Z.ltb_ge in Hp. simpl.
  pose proof (limit_offset_length 10 ((page - 1) * 10) (questions db)) as Hl.
  destruct (limit_offset 10 ((page - 1) * 10) (questions db))
    as [ | q0 rest] eqn:E.
  - cbn [is_empty andb]. destruct (page =? 1); reflexivity.
  - cbn [is_empty andb fst map orb store].
    destruct (categories db) as [ | c cs] eqn:Ec; [reflexivity | ].
    exfalso. destruct H as [H | [H | H]]; [lia | | discriminate].
    unfold len in *. cbn [List.length] in Hl. lia.
Qed.

(** ** The quiz, again *)

Lemma draw_first (rng : nat -> nat) (pool : list Question.t) (ids : list Z)
    (q : Question.t) (n : nat) :
  forall k fuel,
    (forall j, (j < n)%nat ->
       exists x, choice (rng (k + j)%nat) pool = Ok x
                 /\ In (Question.id x) ids) ->
    choice (rng (k + n)%nat) pool = Ok q ->
    ~ In (Question.id q) ids ->
    (n < fuel)%nat ->
    draw fuel rng k pool (VList (map VInt ids)) = Ok q.
Proof.
  induction n as [ | n IH]; intros k fuel Hseen Hq Hnew Hfuel;
    (destruct fuel as [ | fuel]; [lia | ]); simpl.
  - rewrite Nat.add_0_r in Hq. rewrite Hq.
    destruct (existsb (eq_int (Question.id q)) (map VInt ids)) eqn:Hs;
      [ | reflexivity].
    apply seen_iff in Hs. contradiction.
  - destruct (Hseen 0%nat) as [x [Hx Hin]]; [lia | ].
    rewrite Nat.add_0_r in Hx. rewrite Hx.
    apply seen_iff in Hin. rewrite Hin.
    apply IH; [ | now rewrite Nat.add_succ_comm | exact Hnew | lia].
    intros j Hj. destruct (Hseen (S j)) as [y Hy]; [lia | ].
    exists y. now rewrite Nat.add_succ_comm.
Qed.

(** X13: the quiz answers with the first draw that is new: when the
    draws before the [n]-th land on questions whose ids are in
    [previous_questions] and the [n]-th lands on a question whose id is
    not, POST /quizzes answers 200 with that question, whatever bound
    above [n] is put on the iterations of its loop, and the store is left
    alone. *)
Theorem quiz_answers_the_first_new_draw
    (db : Database) (data qc : value) (ids : list Z) (c : Z)
    (rng : nat -> nat) (n : nat) (q : Question.t) :
  field "previous_questions" data = Some (VList (map VInt ids)) ->
  field "quiz_category" data = Some qc ->
  field "id" qc = Some (VInt c) ->
  (forall j, (j < n)%nat ->
     exists x, choice (rng j) (eligible_pool db c) = Ok x
               /\ In (Question.id x) ids) ->
  choice (rng n) (eligible_pool db c) = Ok q ->
  ~ In (Question.id q) ids ->
  forall fuel,
    (n < fuel)%nat ->
    serve (play_quiz fuel rng (Json data)) db
    = (Some (mkResponse 200 (obj [("success", VBool true);
                                  ("question", Question.format q)])), db).
Proof.
  intros Hprev Hqc Hid Hseen Hq Hnew fuel Hfuel.
  apply get_field in Hprev.
  rewrite (play_quiz_run db data qc _ c fuel rng Hprev Hqc Hid).
  now rewrite (draw_first rng _ ids q n 0 fuel Hseen Hq Hnew Hfuel).
Qed.

Lemma contains_raises (v : value) (i : Z) :
  (forall l, v <> VList l) -> (forall d, v <> VDict d) ->
  contains v i = Raise TypeError.
Proof.
  intros Hl Hd. destruct v; try reflexivity.
  - now elim (Hl l).
  - now elim (Hd d).
Qed.

(** X14: POST /quizzes answers the 422 body, with the store left alone,
    when the body is not a JSON object, when it has no [quiz_category]
    with an [id], and, over a pool that is not empty, when
    [previous_questions] is missing or is neither a list nor an object. *)
Theorem quiz_bad_request_is_422 (db : Database) (rng : nat -> nat) :
  (forall fuel p,
      (forall d, p <> Json (VDict d)) ->
      serve (play_quiz fuel rng p) db = (Some unprocesable_entity, db))
  /\ (forall fuel d,
         (forall v, getitem (lookup d "quiz_category") "id" <> Ok v) ->
         serve (play_quiz fuel rng (Json (VDict d))) db
         = (Some unprocesable_entity, db))
  /\ (forall fuel d qc c,
         field "quiz_category" (VDict d) = Some qc ->
         field "id" qc = Some (VInt c) ->
         eligible_pool db c <> [] ->
         (forall l, lookup d "previous_questions" <> VList l) ->
         (forall d', lookup d "previous_questions" <> VDict d') ->
         serve (play_quiz (S fuel) rng (Json (VDict d))) db
         = (Some unprocesable_entity, db)).
Proof.
  split; [ | split].
  - intros fuel p H. destruct p as [ | | v]; try reflexivity.
    destruct v; try reflexivity. now elim (H d).
  - intros fuel d H.
    cbv beta iota zeta delta
      [play_quiz serve finally try_except bind lift ret get_json].
    rewrite !get_dict.
    pose proof (getitem_terminates (lookup d "quiz_category") "id") as Ht.
    destruct (getitem (lookup d "quiz_category") "id") as [v | e | ];
      [now elim (H v) | reflexivity | now elim Ht].
  - intros fuel d qc c Hqc Hid Hne Hl Hd.
    rewrite (play_quiz_run db (VDict d) qc _ c (S fuel) rng
               (get_dict d "previous_questions") Hqc Hid).
    simpl. destruct (eligible_pool db c) as [ | x pool]; [now elim Hne | ].
    unfold choice. now rewrite contains_raises.
Qed.

(** ** Searching, again *)

(** A search on a JSON object, whatever it holds. *)
Lemma search_questions_run (repr_container : value -> string)
    (db : Database) (d : list (key * value)) :
  serve (search_questions repr_container (Json (VDict d))) db
  = (Some (search_answer
             (filter
                (fun q =>
                   ilike (Question.question q)
                         ("%" ++ str repr_container (lookup d "searchTerm")
                              ++ "%"))
                (questions db))), db).
Proof.
  cbv beta iota zeta delta
    [search_questions serve finally try_except bind lift ret get_json].
  rewrite get_dict. reflexivity.
Qed.

Lemma search_not_object (repr_container : value -> string) (db : Database)
    (p : payload) :
  (forall d, p <> Json (VDict d)) ->
  serve (search_questions repr_container p) db
  = (Some unprocesable_entity, db).
Proof.
  intros H. destruct p as [ | | v]; try reflexivity.
  destruct v; try reflexivity. now elim (H d).
Qed.

(** X15: POST /questions/search answers every JSON object with 200,
    whatever the object holds under [searchTerm], a number, a list or
    nothing: the listed questions are stored questions, in store order,
    and [total_questions] is the length of the list.  Only a body that is
    not a JSON object is answered with the 422 body. *)
Theorem search_answers_every_object (repr_container : value -> string)
    (db : Database) :
  (forall d,
      exists found,
        serve (search_questions repr_container (Json (VDict d))) db
        = (Some (search_answer found), db)
        /\ (forall q, In q found -> In q (questions db))
        /\ (exists keep, found = filter keep (questions db)))
  /\ (forall p,
         (forall d, p <> Json (VDict d)) ->
         serve (search_questions repr_container p) db
         = (Some unprocesable_entity, db)).
Proof.
  split.
  - intros d. rewrite search_questions_run. eexists.
    split; [reflexivity | ]. split.
    + intros q Hq. apply filter_In in Hq. tauto.
    + eexists. reflexivity.
  - apply search_not_object.
Qed.

Lemma occurs_in_nil (s : list ascii) : occurs_in [] s = true.
Proof. destruct s; reflexivity. Qed.

Lemma filter_all {A} (f : A -> bool) (l : list A) :
  (forall x, In x l -> f x = true) -> filter f l = l.
Proof.
  induction l as [ | a l IH]; simpl; intros H; [reflexivity | ].
  rewrite (H a (or_introl eq_refl)). f_equal. apply IH.
  intros x Hx. apply H. now right.
Qed.

(** X16: a search for the empty text lists every stored question, in
    store order, with the number of stored questions as
    [total_questions]. *)
Theorem search_for_empty_text_lists_all (repr_container : value -> string)
    (db : Database) (data : value) :
  field "searchTerm" data = Some (VStr "") ->
  serve (search_questions repr_container (Json data)) db
  = (Some (search_answer (questions db)), db).
Proof.
  intros Hf. destruct data as [ | b | m | t | l | d]; try discriminate.
  rewrite search_questions_run, (field_lookup _ _ _ Hf).
  rewrite filter_all; [reflexivity | ].
  intros q _. cbn [str]. rewrite ilike_substring by reflexivity.
  apply occurs_in_nil.
Qed.

(** X17: the case of the letters of the search term does not count: two
    terms that differ by the case of their letters at most get the same
    answer. *)
Theorem search_ignores_case_of_term (repr_container : value -> string)
    (db : Database) (d1 d2 : list (key * value)) (t1 t2 : string) :
  field "searchTerm" (VDict d1) = Some (VStr t1) ->
  field "searchTerm" (VDict d2) = Some (VStr t2) ->
  same_letters t1 t2 ->
  serve (search_questions repr_container (Json (VDict d1))) db
  = serve (search_questions repr_container (Json (VDict d2))) db.
Proof.
  intros H1 H2 Hs. rewrite !search_questions_run.
  rewrite (field_lookup _ _ _ H1), (field_lookup _ _ _ H2). cbn [str].
  do 3 f_equal. apply filter_ext. intros q. unfold ilike.
  rewrite !list_ascii_of_string_app, !map_app.
  unfold same_letters in Hs. now rewrite Hs.
Qed.

Lemma like_underscores (n : nat) (s : list ascii) :
  like (repeat "_"%char n ++ ["%"%char])%list s = (n <=? len s)%nat.
Proof.
  revert s. induction n as [ | n IH]; intros s.
  - apply like_any.
  - destruct s as [ | b s]; [reflexivity | ].
    simpl. apply IH.
Qed.

Lemma like_at_least (n : nat) (s : list ascii) :
  like ("%"%char :: repeat "_"%char n ++ ["%"%char])%list s
  = (n <=? len s)%nat.
Proof.
  induction s as [ | b s IH].
  - rewrite like_percent, like_underscores. apply orb_false_r.
  - rewrite like_percent, like_underscores, IH. unfold len. simpl List.length.
    destruct (n <=? S (List.length s))%nat eqn:E; [reflexivity | ].
    simpl. apply Nat.leb_gt in E. apply Nat.leb_gt. lia.
Qed.

Lemma lower_underscores (n : nat) :
  map lower (repeat "_"%char n) = repeat "_"%char n.
Proof. induction n as [ | n IH]; simpl; [reflexivity | now rewrite IH]. Qed.

Lemma length_list_ascii (s : string) :
  len (list_ascii_of_string s) = String.length s.
Proof. induction s as [ | c s IH]; simpl; [reflexivity | now f_equal]. Qed.

(** X18: the wildcards of [LIKE] are live in the search term: a search
    for a term made of [n] underscores lists exactly the stored questions
    whose text has [n] characters or more, whether or not they contain an
    underscore. *)
Theorem search_for_underscores_counts_characters
    (repr_container : value -> string) (db : Database) (data : value)
    (n : nat) :
  field "searchTerm" data = Some (VStr (underscores n)) ->
  serve (search_questions repr_container (Json data)) db
  = (Some (search_answer
             (filter (fun q => (n <=? String.length (Question.question q))
                               %nat)
                     (questions db))), db).
Proof.
  intros Hf. destruct data as [ | b | m | t | l | d]; try discriminate.
  rewrite search_questions_run, (field_lookup _ _ _ Hf).
  do 3 f_equal. apply filter_ext. intros q. cbn [str]. unfold ilike.
  rewrite !list_ascii_of_string_app. unfold underscores.
  rewrite list_ascii_of_string_of_list_ascii. cbn [list_ascii_of_string app].
  rewrite map_cons, map_app, lower_underscores.
  change (lower "%") with "%"%char.
  change (map lower ["%"%char]) with ["%"%char].
  rewrite like_at_least. unfold len. rewrite length_map.
  now rewrite <- length_list_ascii.
Qed.

(** ** Page numbers *)

Lemma digits_of_positive (d : Decimal.uint) :
  forall (a : positive) (b : bool),
    digits (NilEmpty.string_of_uint d) (Z.pos a) b
    = match d with
      | Decimal.Nil => if b then Some (Z.pos a) else None
      | _ => Some (Z.pos (Pos.of_uint_acc d a))
      end.
Proof.
  induction d as [ | d IH | d IH | d IH | d IH | d IH | d IH | d IH | d IH
                   | d IH | d IH ]; intros a b; [reflexivity | .. ];
    cbn [NilEmpty.string_of_uint digits Pos.of_uint_acc];
    match goal with
    | |- context [digit_of ?c] =>
        let v := eval vm_compute in (digit_of c) in
        change (digit_of c) with v
    end;
    cbv beta iota;
    match goal with
    | |- digits _ ?z true = Some (Z.pos (Pos.of_uint_acc _ ?acc)) =>
        replace z with (Z.pos acc) by lia
    end;
    rewrite IH; destruct d; reflexivity.
Qed.

Lemma digits_of_uint (d : Decimal.uint) (b : bool) :
  digits (NilEmpty.string_of_uint d) 0 b
  = match d with
    | Decimal.Nil => if b then Some 0 else None
    | _ => Some (Z.of_N (Pos.of_uint d))
    end.
Proof.
  revert b.
  induction d as [ | d IH | d IH | d IH | d IH | d IH | d IH | d IH | d IH
                   | d IH | d IH ]; intros b; [reflexivity | .. ];
    cbn [NilEmpty.string_of_uint digits Pos.of_uint];
    match goal with
    | |- context [digit_of ?c] =>
        let v := eval vm_compute in (digit_of c) in
        change (digit_of c) with v
    end;
    cbv beta iota.
  - change (10 * 0 + 0) with 0. rewrite IH. now destruct d.
  - change (10 * 0 + 1) with (Z.pos 1). rewrite digits_of_positive.
    now destruct d.
  - change (10 * 0 + 2) with (Z.pos 2). rewrite digits_of_positive.
    now destruct d.
  - change (10 * 0 + 3) with (Z.pos 3). rewrite digits_of_positive.
    now destruct d.
  - change (10 * 0 + 4) with (Z.pos 4). rewrite digits_of_positive.
    now destruct d.
  - change (10 * 0 + 5) with (Z.pos 5). rewrite digits_of_positive.
    now destruct d.
  - change (10 * 0 + 6) with (Z.pos 6). rewrite digits_of_positive.
    now destruct d.
  - change (10 * 0 + 7) with (Z.pos 7). rewrite digits_of_positive.
    now destruct d.
  - change (10 * 0 + 8) with (Z.pos 8). rewrite digits_of_positive.
    now destruct d.
  - change (10 * 0 + 9) with (Z.pos 9). rewrite digits_of_positive.
    now destruct d.
Qed.

Lemma rstrip_digits (d : Decimal.uint) :
  rstrip (NilEmpty.string_of_uint d) = NilEmpty.string_of_uint d.
Proof.
  induction d; [reflexivity | .. ];
    cbn [NilEmpty.string_of_uint rstrip]; rewrite IHd;
    now destruct (NilEmpty.string_of_uint d).
Qed.

Lemma literal_minus (s : string) :
  rstrip s = s -> s <> "" ->
  literal (String "-" s) = option_map Z.opp (digits s 0 false).
Proof.
  intros Hr Hne. unfold literal.
  change (lstrip (String "-" s)) with (String "-" s).
  cbn [rstrip]. rewrite Hr. destruct s; [now elim Hne | reflexivity].
Qed.

Lemma literal_digits (d : Decimal.uint) :
  d <> Decimal.Nil ->
  literal (NilEmpty.string_of_uint d)
  = digits (NilEmpty.string_of_uint d) 0 false.
Proof.
  intros Hne. unfold literal.
  replace (lstrip (NilEmpty.string_of_uint d))
    with (NilEmpty.string_of_uint d) by (now destruct d).
  rewrite rstrip_digits. destruct d; [now elim Hne | reflexivity .. ].
Qed.

Lemma literal_of_positive (p : positive) :
  literal (NilEmpty.string_of_uint (Pos.to_uint p)) = Some (Z.pos p)
  /\ literal (String "-" (NilEmpty.string_of_uint (Pos.to_uint p)))
     = Some (Z.neg p).
Proof.
  pose proof (DecimalPos.Unsigned.of_to p) as Hof.
  pose proof (DecimalPos.Unsigned.to_uint_nonnil p) as Hnn.
  pose proof (digits_of_uint (Pos.to_uint p) false) as Hd.
  rewrite Hof in Hd.
  assert (Hd' : digits (NilEmpty.string_of_uint (Pos.to_uint p)) 0 false
                = Some (Z.pos p)).
  { rewrite Hd. destruct (Pos.to_uint p); [now elim Hnn | reflexivity .. ]. }
  split.
  - now rewrite literal_digits.
  - rewrite literal_minus, Hd'; [reflexivity | apply rstrip_digits | ].
    destruct (Pos.to_uint p); [now elim Hnn | discriminate .. ].
Qed.

Lemma int_reads_decimal_text_helper (repr_container : value -> string)
    (n : Z) :
  int (VStr (str repr_container (VInt n))) = Ok n.
Proof.
  unfold int, int_of_str, str, NilZero.string_of_int, Z.to_int,
    NilZero.string_of_uint.
  destruct n as [ | p | p]; [reflexivity | | ];
    destruct (literal_of_positive p) as [Hp Hm];
    pose proof (DecimalPos.Unsigned.to_uint_nonnil p) as Hnn;
    destruct (Pos.to_uint p) eqn:E; try (now elim Hnn);
    rewrite ?Hp, ?Hm; reflexivity.
Qed.

(** X19: [int] reads back what an f-string writes for an integer: for
    every integer [n], the text of [n] is read as [n]; so a [page]
    argument written in decimal is read as the page it names, and a
    question can be created with its difficulty given as decimal text. *)
Theorem int_reads_decimal_text (repr_container : value -> string) (n : Z) :
  int (VStr (str repr_container (VInt n))) = Ok n
  /\ int (args_get (Some (str repr_container (VInt n))) (VInt 1)) = Ok n.
Proof.
  split; apply int_reads_decimal_text_helper.
Qed.

(** GET /questions for a page number from 1 on, case by case. *)
Lemma get_questions_run (db : Database) (page_arg : option string)
    (page : Z) :
  int (args_get page_arg (VInt 1)) = Ok page ->
  1 <= page ->
  serve (get_questions page_arg) db
  = let items := limit_offset 10 ((page - 1) * 10) (questions db) in
    if is_empty items || is_empty (categories db)
    then (Some unprocesable_entity, db)
    else
      (Some (mkResponse 200
               (obj [("success", VBool true);
                     ("total_questions",
                      VInt (Z.of_nat (len (questions db))));
                     ("questions", VList (map Question.format items));
                     ("categories", categories_dict (categories db));
                     ("current_category", VNone)])), db).
Proof.
  intros Hint Hlo. unfold get_questions. run_view. rewrite Hint.
  unfold Question_query_paginate, QUESTIONS_PER_PAGE, Category_query_all.
  replace (page <? 1) with false by (symmetry; apply Z.ltb_ge; lia).
  simpl.
  pose proof (page_total (questions db) page) as Ht. cbv zeta in Ht.
  destruct (limit_offset 10 ((page - 1) * 10) (questions db))
    as [ | q0 rest] eqn:E.
  - cbn [is_empty andb orb]. destruct (page =? 1); reflexivity.
  - cbn [is_empty andb orb fst snd map store]. rewrite Ht.
    now destruct (categories db).
Qed.

Lemma firstn_plus {A} (a b : nat) (l : list A) :
  firstn (a + b) l = (firstn a l ++ firstn b (skipn a l))%list.
Proof.
  revert l. induction a as [ | a IH]; intros l; [reflexivity | ].
  destruct l as [ | x l]; simpl.
  - now rewrite firstn_nil.
  - now rewrite IH.
Qed.

Lemma pages_concat {A} (l : list A) (k : nat) :
  List.concat (map (fun p => firstn 10 (skipn (10 * (p - 1)) l)) (seq 1 k))
  = firstn (10 * k) l.
Proof.
  induction k as [ | k IH]; [reflexivity | ].
  rewrite seq_S, map_app, concat_app, IH. cbn [map List.concat].
  rewrite app_nil_r.
  replace (10 * (1 + k - 1))%nat with (10 * k)%nat by lia.
  replace (10 * S k)%nat with (10 * k + 10)%nat by lia.
  now rewrite firstn_plus.
Qed.

Lemma page_of_slice (repr_container : value -> string) (db : Database)
    (p : nat) :
  categories db <> [] ->
  (1 <= p)%nat ->
  page_of db (Some (str repr_container (VInt (Z.of_nat p))))
  = map Question.format (firstn 10 (skipn (10 * (p - 1)) (questions db))).
Proof.
  intros Hc Hp. unfold page_of.
  rewrite (get_questions_run db
             (Some (str repr_container (VInt (Z.of_nat p)))) (Z.of_nat p)
             (int_reads_decimal_text_helper repr_container (Z.of_nat p)))
    by lia.
  cbv zeta.
  replace (limit_offset 10 ((Z.of_nat p - 1) * 10) (questions db))
    with (firstn 10 (skipn (10 * (p - 1)) (questions db))).
  2:{ unfold limit_offset. f_equal. f_equal. lia. }
  destruct (firstn 10 (skipn (10 * (p - 1)) (questions db)))
    as [ | q0 rest]; [reflexivity | ].
  destruct (categories db); [now elim Hc | reflexivity].
Qed.

(** X20: the pages partition the store: with at least one category,
    the questions listed by GET /questions?page=1, ?page=2, ... up to
    ?page=k, one after the other, are the first 10*k stored questions in
    store order; once 10*k reaches the number of stored questions they are
    all of them, each listed once. *)
Theorem pages_cover_the_store (repr_container : value -> string)
    (db : Database) (k : nat) :
  categories db <> [] ->
  let pages :=
    List.concat
      (map (fun p =>
              page_of db (Some (str repr_container (VInt (Z.of_nat p)))))
           (seq 1 k)) in
  pages = map Question.format (firstn (10 * k) (questions db))
  /\ ((len (questions db) <= 10 * k)%nat ->
      pages = map Question.format (questions db)).
Proof.
  intros Hc pages.
  assert (E : pages = map Question.format (firstn (10 * k) (questions db))).
  { unfold pages. rewrite <- pages_concat, concat_map, map_map.
    f_equal. apply map_ext_in. intros p Hp. apply in_seq in Hp.
    apply page_of_slice; [exact Hc | lia]. }
  split; [exact E | ].
  intros Hk. rewrite E. now rewrite firstn_all2.
Qed.

(** ** Across views *)

(** X21: GET /questions carries the categories of GET /categories: when
    both answer 200 (a page in range, and a category in the store), the
    [categories] dict of the page is the one GET /categories answers
    with. *)
Theorem page_carries_the_categories (db : Database)
    (page_arg : option string) (page : Z) (resp : response) :
  int (args_get page_arg (VInt 1)) = Ok page ->
  1 <= page ->
  fst (serve (get_questions page_arg) db) = Some resp ->
  status resp = 200 ->
  exists listing,
    fst (serve get_categories db) = Some listing
    /\ status listing = 200
    /\ field "categories" (body resp) = field "categories" (body listing)
    /\ field "categories" (body resp)
       = Some (categories_dict (categories db)).
Proof.
  intros Hint Hlo Hs Hst.
  rewrite (get_questions_run db page_arg page Hint Hlo) in Hs.
  cbv zeta in Hs.
  destruct (is_empty (limit_offset 10 ((page - 1) * 10) (questions db))
            || is_empty (categories db)) eqn:E.
  - injection Hs as <-. discriminate.
  - injection Hs as <-. apply orb_false_iff in E. destruct E as [_ E].
    unfold get_categories, Category_query_all. run_view. rewrite E.
    eexists. split; [reflexivity | ]. repeat split.
Qed.

Lemma draw_in_pool (rng : nat -> nat) (pool : list Question.t)
    (prev : value) (q : Question.t) :
  forall fuel k, draw fuel rng k pool prev = Ok q -> In q pool.
Proof.
  induction fuel as [ | fuel IH]; intros k; simpl; [discriminate | ].
  destruct (choice (rng k) pool) as [x | e | ] eqn:Hc; try discriminate.
  destruct (contains prev (Question.id x)) as [[ | ] | e | ];
    try discriminate.
  - apply IH.
  - intros H. injection H as <-. eapply choice_in; eassumption.
Qed.

(** The question of a 200 answer of the quiz is a stored question. *)
Lemma quiz_serves_stored (db : Database) (fuel : nat) (rng : nat -> nat)
    (p : payload) (resp : response) :
  fst (serve (play_quiz fuel rng p) db) = Some resp ->
  status resp = 200 ->
  exists q,
    In q (questions db)
    /\ field "question" (body resp) = Some (Question.format q).
Proof.
  intros Hs Hst.
  destruct p as [ | | v]; try (injection Hs as <-; discriminate).
  destruct v as [ | b | m | t | l | d];
    try (injection Hs as <-; discriminate).
  revert Hs.
  cbv beta iota zeta delta
    [play_quiz serve finally try_except bind lift ret get_json].
  rewrite !get_dict.
  destruct (getitem (lookup d "quiz_category") "id") as [cid | e | ];
    try (intros Hs; simpl in Hs;
         first [discriminate Hs | injection Hs as <-; discriminate]).
  set (prev := lookup d "previous_questions").
  destruct (eq_int 0 cid).
  - unfold Question_query_all. cbn [store fst snd].
    intros Hs.
    destruct (draw fuel rng 0 (questions db) prev) as [q | e | ] eqn:Hd;
      simpl in Hs.
    + injection Hs as <-. exists q. split; [ | reflexivity].
      eapply draw_in_pool; eassumption.
    + injection Hs as <-. discriminate.
    + discriminate.
  - destruct cid as [ | b | c | t | l | d'];
      try (intros Hs; injection Hs as <-; discriminate).
    unfold Question_query_filter_by_category. cbn [store fst snd].
    intros Hs.
    destruct (draw fuel rng 0
                (filter (fun q => Question.category q =? c) (questions db))
                prev) as [q | e | ] eqn:Hd; simpl in Hs.
    + injection Hs as <-. exists q. split; [ | reflexivity].
      apply draw_in_pool in Hd. apply filter_In in Hd. tauto.
    + injection Hs as <-. discriminate.
    + discriminate.
Qed.

(** X22: the quiz serves stored questions only, so a deleted question is
    never served again: on the store that a DELETE /questions/id answered
    with 200 has left, whatever POST /quizzes is answered with 200 is a
    stored question whose id is not the deleted one. *)
Theorem deleted_question_is_never_drawn (db : Database) (id : Z)
    (q : Question.t) (fuel : nat) (rng : nat -> nat) (p : payload)
    (resp : response) :
  find (has_id id) (questions db) = Some q ->
  let db' := snd (serve (delete_question id) db) in
  fst (serve (play_quiz fuel rng p) db') = Some resp ->
  status resp = 200 ->
  exists x,
    In x (questions db)
    /\ Question.id x <> id
    /\ field "question" (body resp) = Some (Question.format x).
Proof.
  intros Hq db' Hs Hst.
  destruct (quiz_serves_stored db' fuel rng p resp Hs Hst) as [x [Hx Hf]].
  exists x. unfold db' in Hx.
  destruct (delete_run db id q Hq) as [Hd Hid]. rewrite Hd in Hx.
  simpl in Hx. apply filter_In in Hx. destruct Hx as [Hin Hne].
  subst id. apply negb_true_iff, Z.eqb_neq in Hne. tauto.
Qed.

(** ** The further properties at sample requests *)

Lemma every_answer_is_success_or_422_witness :
  (status unprocesable_entity = 200
   /\ field "success" (body unprocesable_entity) = Some (VBool true))
  \/ unprocesable_entity = unprocesable_entity.
Proof.
  destruct (every_answer_is_success_or_422 no_repr)
    as (_ & _ & H & _).
  apply (H 9 sample_db). reflexivity.
Defined.




Lemma sample_db_well_formed : well_formed sample_db.
Proof.
  split.
  - simpl. repeat constructor; simpl; intuition discriminate.
  - repeat constructor; simpl; lia.
Defined.

Lemma writes_keep_ids_distinct_witness :
  well_formed (snd (serve (add_question (Json sea_request)) sample_db)).
Proof.
  destruct (writes_keep_ids_distinct sample_db sample_db_well_formed)
    as [H _].
  apply (H (Json sea_request)).
Defined.

Lemma delete_leaves_the_others_witness :
  exists db', snd (serve (delete_question 2) sample_db) = db'
              /\ next_id db' = 4.
Proof.
  destruct (delete_leaves_the_others sample_db 2 planet)
    as [db' [H [_ [_ [Hn _]]]]].
  - reflexivity.
  - exists db'. split; [exact H | exact Hn].
Defined.

Lemma delete_twice_is_422_witness :
  exists db',
    serve (delete_question 2) sample_db
    = (Some (mkResponse 200 (obj [("success", VBool true);
                                  ("id", VInt 2)])), db')
    /\ serve (delete_question 2) db' = (Some unprocesable_entity, db').
Proof.
  apply (delete_twice_is_422 sample_db 2 planet). reflexivity.
Defined.

Lemma categories_are_keyed_by_their_id_witness :
  exists d,
    serve get_categories sample_db
    = (Some (mkResponse 200 (obj [("success", VBool true);
                                  ("categories", VDict d)])), sample_db)
    /\ dict_get d (KInt 5) = Some (VStr "Entertainment").
Proof.
  destruct (categories_are_keyed_by_their_id sample_db) as [_ H].
  destruct H as [d [Hs Hd]]; [discriminate | ].
  exists d. split; [exact Hs | ]. rewrite Hd. reflexivity.
Defined.

Lemma category_listing_is_422_iff_empty_witness :
  fst (serve (get_questions_by_category 4) sample_db)
  = Some unprocesable_entity.
Proof.
  apply (category_listing_is_422_iff_empty sample_db 4).
  simpl. intros q [<- | [<- | [<- | []]]]; discriminate.
Defined.

Lemma created_question_is_listed_witness :
  exists row listing,
    serve (get_questions_by_category (Question.category row))
          sample_db_with_sea = (Some listing, sample_db_with_sea)
    /\ status listing = 200.
Proof.
  destruct (created_question_is_listed sample_db sample_db_with_sea
              (Json sea_request)
              (mkResponse 200 (obj [("success", VBool true);
                                    ("id", VInt 4)])))
    as [row [listing [listed [_ [Hs [Hst _]]]]]].
  - reflexivity.
  - reflexivity.
  - exists row, listing. split; assumption.
Defined.

Lemma page_out_of_range_is_422_witness :
  serve (get_questions (Some "0")) sample_db
  = (Some unprocesable_entity, sample_db).
Proof.
  apply (page_out_of_range_is_422 sample_db (Some "0")).
  intros page H. injection H as <-. left. lia.
Defined.

Lemma quiz_answers_the_first_new_draw_witness :
  serve (play_quiz 3 (fun k => k) (Json (quiz_request [1; 2] 0))) sample_db
  = (Some (mkResponse 200 (obj [("success", VBool true);
                                ("question", Question.format painter)])),
     sample_db).
Proof.
  apply (quiz_answers_the_first_new_draw sample_db (quiz_request [1; 2] 0)
           (obj [("id", VInt 0)]) [1; 2] 0 (fun k => k) 2 painter).
  - reflexivity.
  - reflexivity.
  - reflexivity.
  - intros j Hj.
    destruct j as [ | [ | j]]; [exists film | exists planet | lia];
      (split; [reflexivity | simpl; auto]).
  - reflexivity.
  - simpl. lia.
  - lia.
Defined.

Lemma quiz_bad_request_is_422_witness :
  serve (play_quiz 1 (fun k => k)
           (Json (obj [("quiz_category", obj [("id", VInt 0)])])))
        sample_db
  = (Some unprocesable_entity, sample_db).
Proof.
  destruct (quiz_bad_request_is_422 sample_db (fun k => k)) as [_ [_ H]].
  apply (H 0%nat _ (obj [("id", VInt 0)]) 0).
  - reflexivity.
  - reflexivity.
  - discriminate.
  - discriminate.
  - discriminate.
Defined.

Lemma search_answers_every_object_witness :
  serve (search_questions no_repr NoJson) sample_db
  = (Some unprocesable_entity, sample_db).
Proof.
  destruct (search_answers_every_object no_repr sample_db) as [_ H].
  apply H. discriminate.
Defined.

Lemma search_for_empty_text_lists_all_witness :
  serve (search_questions no_repr (Json (obj [("searchTerm", VStr "")])))
        sample_db
  = (Some (search_answer [film; planet; painter]), sample_db).
Proof.
  apply (search_for_empty_text_lists_all no_repr sample_db). reflexivity.
Defined.

Lemma search_ignores_case_of_term_witness :
  serve (search_questions no_repr
           (Json (VDict [(KStr "searchTerm", VStr "Title")]))) sample_db
  = serve (search_questions no_repr
             (Json (VDict [(KStr "searchTerm", VStr "tITLE")]))) sample_db.
Proof.
  apply (search_ignores_case_of_term no_repr sample_db _ _ "Title" "tITLE");
    reflexivity.
Defined.

Lemma search_for_underscores_counts_characters_witness :
  serve (search_questions no_repr
           (Json (obj [("searchTerm", VStr "__")]))) sample_db
  = (Some (search_answer
             (filter (fun q => (2 <=? String.length (Question.question q))
                               %nat)
                     (questions sample_db))), sample_db).
Proof.
  apply (search_for_underscores_counts_characters no_repr sample_db _ 2).
  reflexivity.
Defined.

Lemma pages_cover_the_store_witness :
  List.concat
    (map (fun p =>
            page_of twelve_db (Some (str no_repr (VInt (Z.of_nat p)))))
         (seq 1 2))
  = map Question.format (questions twelve_db).
Proof.
  destruct (pages_cover_the_store no_repr twelve_db 2) as [_ H].
  - discriminate.
  - apply H. simpl. lia.
Defined.

Lemma page_carries_the_categories_witness :
  exists listing,
    fst (serve get_categories twelve_db) = Some listing
    /\ status listing = 200.
Proof.
  destruct (fst (serve (get_questions (Some "2")) twelve_db))
    as [resp | ] eqn:E; [ | discriminate].
  destruct (page_carries_the_categories twelve_db (Some "2") 2 resp)
    as [listing [H [Hst _]]].
  - reflexivity.
  - lia.
  - exact E.
  - vm_compute in E. injection E as <-. reflexivity.
  - exists listing. split; assumption.
Defined.

Lemma deleted_question_is_never_drawn_witness :
  exists x,
    In x (questions sample_db) /\ Question.id x <> 2.
Proof.
  destruct (deleted_question_is_never_drawn sample_db 2 planet 3
              (fun k => k) (Json (quiz_request [] 0))
              (mkResponse 200 (obj [("success", VBool true);
                                    ("question", Question.format film)])))
    as [x [Hx [Hne _]]].
  - reflexivity.
  - reflexivity.
  - reflexivity.
  - exists x. split; assumption.
Defined.
